(** * Longitudinal planner: acceleration limits, cruise state machine, arbitration

    A shallow embedding of [selfdrive/controls/lib/longitudinal_planner.py].

    Numbers.  The planner computes on Python floats.  They are modelled as
    exact rationals ([Q]): comparisons, [min]/[max] and the table look-ups
    are what the properties below depend on, and these are the same on a
    total order.  Rounding, infinities and NaN are outside the model.  The
    turn limiter needs a square root and is modelled over the reals in
    [Module Turns].

    Effects.  Methods of [Planner] mutate [self]; they are functions from a
    planner record to a planner record.  A Python exception ([KeyError],
    [ValueError], [IndexError], [ZeroDivisionError], [OverflowError]) is
    [None]. *)

From Stdlib Require Import QArith Qminmax ZArith List Bool Lia Psatz Reals.
Import ListNotations.
Open Scope Q_scope.

(** ** Python primitives *)

(** [a < b] on floats. *)
Definition Qlt_bool (a b : Q) : bool := negb (Qle_bool b a).

(** Python's two-argument [min(a, b)] returns [a] unless [b < a], and
    [max(a, b)] returns [a] unless [b > a]: these are [Qmin] and [Qmax]
    (lemmas [Qmin_python] and [Qmax_python] below). *)

(** [l[i]] for a Python list: negative indices count from the end, anything
    outside [-len, len) raises [IndexError]. *)
Definition list_getitem {A : Type} (l : list A) (i : Z) : option A :=
  let n := Z.of_nat (length l) in
  if (0 <=? i)%Z then nth_error l (Z.to_nat i)
  else if (- n <=? i)%Z then nth_error l (Z.to_nat (n + i))
  else None.

(** Monadic bind for code that may raise. *)
Definition bind {A B : Type} (m : option A) (k : A -> option B) : option B :=
  match m with
  | Some a => k a
  | None => None
  end.

Notation "x <- m ;; k" := (bind m (fun x => k))
  (at level 61, m at next level, right associativity).

(** ** Interpolation

    [interp] of [common/numpy_fast.py] is not among the sources.  Its body
    is written once, over any number type, and used on rationals here and on
    reals in [Turns]. *)

Section Interp.
Variable A : Type.
Variable leb : A -> A -> bool.
Variables add sub mul div : A -> A -> A.
Variable zero : A.

(** Modelled from the spec: the walk along the breakpoints.  [(x0, y0)] is
    the breakpoint already passed; [x] lies on the segment that ends at the
    first breakpoint [x1] with [x <= x1], and the value there is linear
    between the two table values.  Past the last breakpoint the last table
    value is held. *)
Fixpoint interp_from (x x0 y0 : A) (xp fp : list A) : A :=
  match xp, fp with
  | x1 :: xp', y1 :: fp' =>
      if leb x x1
      then add (div (mul (sub x x0) (sub y1 y0)) (sub x1 x0)) y0
      else interp_from x x1 y1 xp' fp'
  | _, _ => y0
  end.

(** Modelled from the spec: piecewise-linear interpolation of [fp] over the
    breakpoints [xp]; at or below the first breakpoint the first table value
    is held. *)
Definition interp_gen (x : A) (xp fp : list A) : A :=
  match xp, fp with
  | x0 :: xp', y0 :: fp' =>
      if leb x x0 then y0 else interp_from x x0 y0 xp' fp'
  | _, _ => zero
  end.
End Interp.

(** Modelled from the spec: [interp] of [common/numpy_fast.py], which is not
    among the sources.  The spec describes it as piecewise-linear
    interpolation over the fixed speed breakpoints; as in numpy's function of
    the same name, the first table value is held below the first breakpoint
    and the last one above the last breakpoint.  Every call in the planner
    passes tables of equal, non-zero length (the value on empty tables, 0,
    is never used). *)
Definition interp (x : Q) (xp fp : list Q) : Q :=
  interp_gen Q Qle_bool Qplus Qminus Qmult Qdiv 0 x xp fp.

(** ** Constants and look-up tables *)

Definition LON_MPC_STEP : Q := 0.2.
Definition AWARENESS_DECEL : Q := -0.2.

Definition _A_CRUISE_MIN_V_ECO : list Q := [-1.0; -0.7; -0.6; -0.5; -0.3].
Definition _A_CRUISE_MIN_V_SPORT : list Q := [-3.0; -2.6; -2.3; -2.0; -1.0].
Definition _A_CRUISE_MIN_V_FOLLOWING : list Q := [-3.0; -2.5; -2.0; -1.5; -1.0].
Definition _A_CRUISE_MIN_V : list Q := [-2.0; -1.5; -1.0; -0.7; -0.5].
Definition _A_CRUISE_MIN_BP : list Q := [0.0; 5.0; 10.0; 20.0; 55.0].

Definition _A_CRUISE_MAX_V : list Q := [2.0; 2.0; 1.5; 0.5; 0.3].
Definition _A_CRUISE_MAX_V_ECO : list Q := [0.8; 0.9; 1.0; 0.4; 0.2].
Definition _A_CRUISE_MAX_V_SPORT : list Q := [3.0; 3.5; 3.0; 2.0; 2.0].
Definition _A_CRUISE_MAX_V_FOLLOWING : list Q := [1.6; 1.4; 1.4; 0.7; 0.3].
Definition _A_CRUISE_MAX_BP : list Q := [0; 5; 10; 20; 55].

(** ** [calc_cruise_accel_limits]

    [accelMode] is the configured mode after [int(...)]; the [print] has no
    effect on the result.  The 2x1 array that [np.vstack] builds is read back
    by the caller as the two floats [(a_cruise_min, a_cruise_max)]. *)
Definition _A_CRUISE_MAX_V_MODE_LIST : list (list Q) :=
  [_A_CRUISE_MAX_V_ECO; _A_CRUISE_MAX_V; _A_CRUISE_MAX_V_SPORT].

Definition _A_CRUISE_MAX_V_MODE_LIST_INDEX (accelMode : Z) : Z :=
  Z.min (Z.max accelMode 0) (Z.of_nat (length _A_CRUISE_MAX_V_MODE_LIST) - 1).

Definition calc_cruise_accel_limits (v_ego : Q) (following : bool) (accelMode : Z)
  : option (Q * Q) :=
  let a_cruise_min := interp v_ego _A_CRUISE_MIN_BP _A_CRUISE_MIN_V in
  if following then
    Some (a_cruise_min, interp v_ego _A_CRUISE_MAX_BP _A_CRUISE_MAX_V_FOLLOWING)
  else
    tbl <- list_getitem _A_CRUISE_MAX_V_MODE_LIST
             (_A_CRUISE_MAX_V_MODE_LIST_INDEX accelMode) ;;
    Some (a_cruise_min, interp v_ego _A_CRUISE_MAX_BP tbl).

(** ** Data model *)

(** Modelled from the spec: [log.LongitudinalPlan.LongitudinalPlanSource],
    declared in [cereal], with the five variants of the spec's data model,
    under the names the planner uses for them. *)
Module Source.
Inductive t : Set := cruiseCoast | cruiseGas | cruiseBrake | mpc1 | mpc2.

Definition eqb (a b : t) : bool :=
  match a, b with
  | cruiseCoast, cruiseCoast | cruiseGas, cruiseGas
  | cruiseBrake, cruiseBrake | mpc1, mpc1 | mpc2, mpc2 => true
  | _, _ => false
  end.
End Source.

(** Modelled from the spec: [LongCtrlState], declared in [cereal] and
    re-exported by [longcontrol.py].  [pid], [stopping] and [starting] are
    the states the planner names; [off] is the state in which longitudinal
    control is not active. *)
Module LongCtrlState.
Inductive t : Set := off | pid | stopping | starting.

Definition eqb (a b : t) : bool :=
  match a, b with
  | off, off | pid, pid | stopping, stopping | starting, starting => true
  | _, _ => false
  end.
End LongCtrlState.

(** The fields of [CarParams] that the planner reads. *)
Record CarParams : Set := {
  minSpeedCan : Q;
  startAccel : Q;
  radarTimeStep : Q
}.

(** A lead of [radarState]. *)
Record Lead : Set := {
  status : bool;
  dRel : Q;
  vLeadK : Q;
  aLeadK : Q
}.

(** What [update] reads from the [SubMaster]: [carState], [carControl]
    (the actuators) and [controlsState]. *)
Record SubMaster : Set := {
  vEgo : Q;
  aEgo : Q;
  gasPressed : bool;
  actuators_gas : Q;
  actuators_brake : Q;
  longControlState : LongCtrlState.t;
  vCruise : Q;
  forceDecel : bool;
  leadOne : Lead;
  leadTwo : Lead
}.

(** The configuration that [kegman_conf()] reads; [accelerationMode] is its
    value after [int(...)]. *)
Record KegmanConf : Set := {
  accelerationMode : Z
}.

(** [selfdrive.config.Conversions], which is not among the sources: the two
    factors the planner uses are parameters. *)
Record Conversions : Set := {
  MPH_TO_MS : Q;
  KPH_TO_MS : Q
}.

(** The interface of [LongitudinalMpc] ([long_mpc.py], an external
    collaborator): what the planner reads from a tracker and the two
    operations it calls on it. *)
Class LongitudinalMpc (M : Type) : Type := {
  mpc_new : Z -> M;
  prev_lead_status : M -> bool;
  new_lead : M -> bool;
  v_mpc : M -> Q;
  a_mpc : M -> Q;
  v_mpc_future : M -> Q;
  set_cur_state : M -> Q -> Q -> M;
  mpc_update : M -> SubMaster -> Lead -> M
}.

(** One call of [update]: the messages, the [CP] argument, and what
    [kegman_conf()] would read if the planner reloads it this cycle. *)
Record Inputs : Set := {
  sm : SubMaster;
  CP_arg : CarParams;
  kegman_file : KegmanConf
}.

Section PlannerModel.
Context {M : Type} `{LongitudinalMpc M}.

(** [speed_smoother] of [speed_smoother.py], an external pure function:
    [(v_start, a_start, v_target, a_max, a_min, jerk_max, jerk_min, dt)]. *)
Variable speed_smoother : Q -> Q -> Q -> Q -> Q -> Q -> Q -> Q -> Q * Q.
Variable CV : Conversions.
(** [V_CRUISE_MAX] of [drive_helpers.py]. *)
Variable V_CRUISE_MAX : Q.

Definition COAST_SPEED : Q := 10.0 * MPH_TO_MS CV.

(** The attributes of [Planner] that take part in planning.  The collision
    warning ([fcw_checker], [fcw]), [path_x] and [params] are left out: no
    planning decision reads them. *)
Record Planner : Type := {
  CP : CarParams;
  mpc1 : M;
  mpc2 : M;
  v_acc_start : Q;
  a_acc_start : Q;
  v_acc_next : Q;
  a_acc_next : Q;
  v_acc : Q;
  v_acc_future : Q;
  a_acc : Q;
  v_cruise : Q;
  a_cruise : Q;
  source : Source.t;
  cruise_source : Source.t;
  kegman : KegmanConf;
  mpc_frame : Z;
  first_loop : bool;
  coast_enabled : bool
}.

(** Attribute assignment, [self.f = x]. *)
Definition set_mpc1 (self : Planner) (x : M) : Planner :=
  {| CP := CP self; mpc1 := x; mpc2 := mpc2 self;
     v_acc_start := v_acc_start self; a_acc_start := a_acc_start self;
     v_acc_next := v_acc_next self; a_acc_next := a_acc_next self;
     v_acc := v_acc self; v_acc_future := v_acc_future self;
     a_acc := a_acc self; v_cruise := v_cruise self;
     a_cruise := a_cruise self; source := source self;
     cruise_source := cruise_source self; kegman := kegman self;
     mpc_frame := mpc_frame self; first_loop := first_loop self;
     coast_enabled := coast_enabled self |}.

Definition set_mpc2 (self : Planner) (x : M) : Planner :=
  {| CP := CP self; mpc1 := mpc1 self; mpc2 := x;
     v_acc_start := v_acc_start self; a_acc_start := a_acc_start self;
     v_acc_next := v_acc_next self; a_acc_next := a_acc_next self;
     v_acc := v_acc self; v_acc_future := v_acc_future self;
     a_acc := a_acc self; v_cruise := v_cruise self;
     a_cruise := a_cruise self; source := source self;
     cruise_source := cruise_source self; kegman := kegman self;
     mpc_frame := mpc_frame self; first_loop := first_loop self;
     coast_enabled := coast_enabled self |}.

Definition set_v_acc_start (self : Planner) (x : Q) : Planner :=
  {| CP := CP self; mpc1 := mpc1 self; mpc2 := mpc2 self; v_acc_start := x;
     a_acc_start := a_acc_start self; v_acc_next := v_acc_next self;
     a_acc_next := a_acc_next self; v_acc := v_acc self;
     v_acc_future := v_acc_future self; a_acc := a_acc self;
     v_cruise := v_cruise self; a_cruise := a_cruise self;
     source := source self; cruise_source := cruise_source self;
     kegman := kegman self; mpc_frame := mpc_frame self;
     first_loop := first_loop self; coast_enabled := coast_enabled self |}.

Definition set_a_acc_start (self : Planner) (x : Q) : Planner :=
  {| CP := CP self; mpc1 := mpc1 self; mpc2 := mpc2 self;
     v_acc_start := v_acc_start self; a_acc_start := x;
     v_acc_next := v_acc_next self; a_acc_next := a_acc_next self;
     v_acc := v_acc self; v_acc_future := v_acc_future self;
     a_acc := a_acc self; v_cruise := v_cruise self;
     a_cruise := a_cruise self; source := source self;
     cruise_source := cruise_source self; kegman := kegman self;
     mpc_frame := mpc_frame self; first_loop := first_loop self;
     coast_enabled := coast_enabled self |}.

Definition set_v_acc_next (self : Planner) (x : Q) : Planner :=
  {| CP := CP self; mpc1 := mpc1 self; mpc2 := mpc2 self;
     v_acc_start := v_acc_start self; a_acc_start := a_acc_start self;
     v_acc_next := x; a_acc_next := a_acc_next self; v_acc := v_acc self;
     v_acc_future := v_acc_future self; a_acc := a_acc self;
     v_cruise := v_cruise self; a_cruise := a_cruise self;
     source := source self; cruise_source := cruise_source self;
     kegman := kegman self; mpc_frame := mpc_frame self;
     first_loop := first_loop self; coast_enabled := coast_enabled self |}.

Definition set_a_acc_next (self : Planner) (x : Q) : Planner :=
  {| CP := CP self; mpc1 := mpc1 self; mpc2 := mpc2 self;
     v_acc_start := v_acc_start self; a_acc_start := a_acc_start self;
     v_acc_next := v_acc_next self; a_acc_next := x; v_acc := v_acc self;
     v_acc_future := v_acc_future self; a_acc := a_acc self;
     v_cruise := v_cruise self; a_cruise := a_cruise self;
     source := source self; cruise_source := cruise_source self;
     kegman := kegman self; mpc_frame := mpc_frame self;
     first_loop := first_loop self; coast_enabled := coast_enabled self |}.

Definition set_v_acc (self : Planner) (x : Q) : Planner :=
  {| CP := CP self; mpc1 := mpc1 self; mpc2 := mpc2 self;
     v_acc_start := v_acc_start self; a_acc_start := a_acc_start self;
     v_acc_next := v_acc_next self; a_acc_next := a_acc_next self;
     v_acc := x; v_acc_future := v_acc_future self; a_acc := a_acc self;
     v_cruise := v_cruise self; a_cruise := a_cruise self;
     source := source self; cruise_source := cruise_source self;
     kegman := kegman self; mpc_frame := mpc_frame self;
     first_loop := first_loop self; coast_enabled := coast_enabled self |}.

Definition set_v_acc_future (self : Planner) (x : Q) : Planner :=
  {| CP := CP self; mpc1 := mpc1 self; mpc2 := mpc2 self;
     v_acc_start := v_acc_start self; a_acc_start := a_acc_start self;
     v_acc_next := v_acc_next self; a_acc_next := a_acc_next self;
     v_acc := v_acc self; v_acc_future := x; a_acc := a_acc self;
     v_cruise := v_cruise self; a_cruise := a_cruise self;
     source := source self; cruise_source := cruise_source self;
     kegman := kegman self; mpc_frame := mpc_frame self;
     first_loop := first_loop self; coast_enabled := coast_enabled self |}.

Definition set_a_acc (self : Planner) (x : Q) : Planner :=
  {| CP := CP self; mpc1 := mpc1 self; mpc2 := mpc2 self;
     v_acc_start := v_acc_start self; a_acc_start := a_acc_start self;
     v_acc_next := v_acc_next self; a_acc_next := a_acc_next self;
     v_acc := v_acc self; v_acc_future := v_acc_future self; a_acc := x;
     v_cruise := v_cruise self; a_cruise := a_cruise self;
     source := source self; cruise_source := cruise_source self;
     kegman := kegman self; mpc_frame := mpc_frame self;
     first_loop := first_loop self; coast_enabled := coast_enabled self |}.

Definition set_v_cruise (self : Planner) (x : Q) : Planner :=
  {| CP := CP self; mpc1 := mpc1 self; mpc2 := mpc2 self;
     v_acc_start := v_acc_start self; a_acc_start := a_acc_start self;
     v_acc_next := v_acc_next self; a_acc_next := a_acc_next self;
     v_acc := v_acc self; v_acc_future := v_acc_future self;
     a_acc := a_acc self; v_cruise := x; a_cruise := a_cruise self;
     source := source self; cruise_source := cruise_source self;
     kegman := kegman self; mpc_frame := mpc_frame self;
     first_loop := first_loop self; coast_enabled := coast_enabled self |}.

Definition set_a_cruise (self : Planner) (x : Q) : Planner :=
  {| CP := CP self; mpc1 := mpc1 self; mpc2 := mpc2 self;
     v_acc_start := v_acc_start self; a_acc_start := a_acc_start self;
     v_acc_next := v_acc_next self; a_acc_next := a_acc_next self;
     v_acc := v_acc self; v_acc_future := v_acc_future self;
     a_acc := a_acc self; v_cruise := v_cruise self; a_cruise := x;
     source := source self; cruise_source := cruise_source self;
     kegman := kegman self; mpc_frame := mpc_frame self;
     first_loop := first_loop self; coast_enabled := coast_enabled self |}.

Definition set_source (self : Planner) (x : Source.t) : Planner :=
  {| CP := CP self; mpc1 := mpc1 self; mpc2 := mpc2 self;
     v_acc_start := v_acc_start self; a_acc_start := a_acc_start self;
     v_acc_next := v_acc_next self; a_acc_next := a_acc_next self;
     v_acc := v_acc self; v_acc_future := v_acc_future self;
     a_acc := a_acc self; v_cruise := v_cruise self;
     a_cruise := a_cruise self; source := x;
     cruise_source := cruise_source self; kegman := kegman self;
     mpc_frame := mpc_frame self; first_loop := first_loop self;
     coast_enabled := coast_enabled self |}.

Definition set_cruise_source (self : Planner) (x : Source.t) : Planner :=
  {| CP := CP self; mpc1 := mpc1 self; mpc2 := mpc2 self;
     v_acc_start := v_acc_start self; a_acc_start := a_acc_start self;
     v_acc_next := v_acc_next self; a_acc_next := a_acc_next self;
     v_acc := v_acc self; v_acc_future := v_acc_future self;
     a_acc := a_acc self; v_cruise := v_cruise self;
     a_cruise := a_cruise self; source := source self; cruise_source := x;
     kegman := kegman self; mpc_frame := mpc_frame self;
     first_loop := first_loop self; coast_enabled := coast_enabled self |}.

Definition set_kegman (self : Planner) (x : KegmanConf) : Planner :=
  {| CP := CP self; mpc1 := mpc1 self; mpc2 := mpc2 self;
     v_acc_start := v_acc_start self; a_acc_start := a_acc_start self;
     v_acc_next := v_acc_next self; a_acc_next := a_acc_next self;
     v_acc := v_acc self; v_acc_future := v_acc_future self;
     a_acc := a_acc self; v_cruise := v_cruise self;
     a_cruise := a_cruise self; source := source self;
     cruise_source := cruise_source self; kegman := x;
     mpc_frame := mpc_frame self; first_loop := first_loop self;
     coast_enabled := coast_enabled self |}.

Definition set_mpc_frame (self : Planner) (x : Z) : Planner :=
  {| CP := CP self; mpc1 := mpc1 self; mpc2 := mpc2 self;
     v_acc_start := v_acc_start self; a_acc_start := a_acc_start self;
     v_acc_next := v_acc_next self; a_acc_next := a_acc_next self;
     v_acc := v_acc self; v_acc_future := v_acc_future self;
     a_acc := a_acc self; v_cruise := v_cruise self;
     a_cruise := a_cruise self; source := source self;
     cruise_source := cruise_source self; kegman := kegman self;
     mpc_frame := x; first_loop := first_loop self;
     coast_enabled := coast_enabled self |}.

Definition set_first_loop (self : Planner) (x : bool) : Planner :=
  {| CP := CP self; mpc1 := mpc1 self; mpc2 := mpc2 self;
     v_acc_start := v_acc_start self; a_acc_start := a_acc_start self;
     v_acc_next := v_acc_next self; a_acc_next := a_acc_next self;
     v_acc := v_acc self; v_acc_future := v_acc_future self;
     a_acc := a_acc self; v_cruise := v_cruise self;
     a_cruise := a_cruise self; source := source self;
     cruise_source := cruise_source self; kegman := kegman self;
     mpc_frame := mpc_frame self; first_loop := x;
     coast_enabled := coast_enabled self |}.

(** [Planner.__init__]; [conf] is what [kegman_conf()] reads at
    construction. *)
Definition init (cp : CarParams) (conf : KegmanConf) : Planner :=
  {| CP := cp; mpc1 := mpc_new 1; mpc2 := mpc_new 2;
     v_acc_start := 0; a_acc_start := 0; v_acc_next := 0; a_acc_next := 0;
     v_acc := 0; v_acc_future := 0; a_acc := 0; v_cruise := 0; a_cruise := 0;
     source := Source.cruiseCoast; cruise_source := Source.cruiseCoast;
     kegman := conf; mpc_frame := 0%Z; first_loop := true;
     coast_enabled := true |}.

(** *** Dictionaries keyed by [Source]

    A Python [dict] keeps its keys in insertion order; assigning to a key
    that is present replaces the value in place. *)
Fixpoint dict_set {V : Type} (d : list (Source.t * V)) (k : Source.t) (v : V)
  : list (Source.t * V) :=
  match d with
  | [] => [(k, v)]
  | (k', v') :: d' =>
      if Source.eqb k' k then (k', v) :: d' else (k', v') :: dict_set d' k v
  end.

(** [d[k]], a [KeyError] when [k] is absent. *)
Fixpoint dict_getitem {V : Type} (d : list (Source.t * V)) (k : Source.t)
  : option V :=
  match d with
  | [] => None
  | (k', v') :: d' => if Source.eqb k' k then Some v' else dict_getitem d' k
  end.

(** [min(d, key=d.get)]: the keys are visited in order and the running
    minimum is replaced only by a strictly smaller value, so the first key
    of least value is returned; [ValueError] on an empty dictionary. *)
Fixpoint min_key_from (best : Source.t) (vbest : Q) (d : list (Source.t * Q))
  : Source.t :=
  match d with
  | [] => best
  | (k, v) :: d' =>
      if Qlt_bool v vbest then min_key_from k v d'
      else min_key_from best vbest d'
  end.

Definition dict_min_key (d : list (Source.t * Q)) : option Source.t :=
  match d with
  | [] => None
  | (k, v) :: d' => Some (min_key_from k v d')
  end.

(** *** [Planner.choose_solution] *)

Definition solutions (self : Planner) : list (Source.t * Q) :=
  let d := [(cruise_source self, v_cruise self)] in
  let d := if prev_lead_status (mpc1 self)
           then dict_set d Source.mpc1 (v_mpc (mpc1 self)) else d in
  if prev_lead_status (mpc2 self)
  then dict_set d Source.mpc2 (v_mpc (mpc2 self)) else d.

Definition choose_solution (self : Planner) (v_cruise_setpoint : Q)
  (enabled : bool) : option Planner :=
  self <- (if enabled then
             slowest <- dict_min_key (solutions self) ;;
             let self := set_source self slowest in
             Some
               (if Source.eqb slowest Source.mpc1 then
                  set_a_acc (set_v_acc self (v_mpc (mpc1 self)))
                            (a_mpc (mpc1 self))
                else if Source.eqb slowest Source.mpc2 then
                  set_a_acc (set_v_acc self (v_mpc (mpc2 self)))
                            (a_mpc (mpc2 self))
                else if Source.eqb slowest (cruise_source self) then
                  set_a_acc (set_v_acc self (v_cruise self)) (a_cruise self)
                else self)
           else Some self) ;;
  Some (set_v_acc_future self
          (Qmin (Qmin (v_mpc_future (mpc1 self)) (v_mpc_future (mpc2 self)))
                v_cruise_setpoint)).

(** *** [Planner.choose_cruise]

    [accel_limits_turns] and [jerk_limits] are the pairs [(x[0], x[1])].
    The result is the mutated planner and the returned pair. *)

(** The part of [choose_cruise] below the early return for disabled
    coasting. *)
Definition choose_cruise_coasting (self : Planner)
  (v_ego a_ego v_cruise_setpoint : Q) (accel_limits_turns jerk_limits : Q * Q)
  (gasbrake : Q) : option (Planner * (Q * Q)) :=
  let self :=
    if Source.eqb (source self) Source.cruiseCoast then
      set_a_acc_start (set_v_acc_start self v_ego) a_ego
    else if Source.eqb (source self) Source.mpc1
            || Source.eqb (source self) Source.mpc2 then
      set_cruise_source self
        (if Qle_bool 0 gasbrake then Source.cruiseGas else Source.cruiseBrake)
    else self in
  let '(v_coast, a_coast) := (v_ego, a_ego) in
  let '(v_gas, a_gas) :=
    speed_smoother (v_acc_start self) (a_acc_start self)
      v_cruise_setpoint
      (snd accel_limits_turns) (fst accel_limits_turns)
      (snd jerk_limits) (fst jerk_limits) LON_MPC_STEP in
  let '(v_brake, a_brake) :=
    speed_smoother (v_acc_start self) (a_acc_start self)
      (v_cruise_setpoint + COAST_SPEED)
      (snd accel_limits_turns) (fst accel_limits_turns)
      (snd jerk_limits) (fst jerk_limits) LON_MPC_STEP in
  let cruise :=
    [(Source.cruiseCoast, (v_coast, a_coast));
     (Source.cruiseGas, (v_gas, a_gas));
     (Source.cruiseBrake, (v_brake, a_brake))] in
  let self :=
    if Qeq_bool gasbrake 0 then
      if Qle_bool a_brake a_coast then
        set_cruise_source self Source.cruiseBrake
      else if Qle_bool a_coast a_gas then
        set_cruise_source self Source.cruiseGas
      else if Qle_bool a_coast a_brake && Qle_bool a_gas a_coast then
        set_cruise_source self Source.cruiseCoast
      else self
    else self in
  r <- dict_getitem cruise (cruise_source self) ;;
  Some (self, r).

Definition choose_cruise (self : Planner)
  (v_ego a_ego v_cruise_setpoint : Q) (accel_limits_turns jerk_limits : Q * Q)
  (gasbrake : Q) : option (Planner * (Q * Q)) :=
  if negb (coast_enabled self) then
    Some (set_cruise_source self Source.cruiseGas,
          speed_smoother (v_acc_start self) (a_acc_start self)
            v_cruise_setpoint
            (snd accel_limits_turns) (fst accel_limits_turns)
            (snd jerk_limits) (fst jerk_limits) LON_MPC_STEP)
  else
    choose_cruise_coasting self v_ego a_ego v_cruise_setpoint
      accel_limits_turns jerk_limits gasbrake.

(** *** [Planner.update] *)

(** [long_control_state in [LongCtrlState.pid, LongCtrlState.stopping]]. *)
Definition enabled_of (long_control_state : LongCtrlState.t) : bool :=
  LongCtrlState.eqb long_control_state LongCtrlState.pid
  || LongCtrlState.eqb long_control_state LongCtrlState.stopping.

Definition following_of (lead_1 : Lead) (v_ego : Q) : bool :=
  status lead_1 && Qlt_bool (dRel lead_1) 45.0
  && Qlt_bool v_ego (vLeadK lead_1) && Qlt_bool 0.0 (aLeadK lead_1).

(** The condition of the branch that plans the cruise speed. *)
Definition cruise_path (self : Planner) (i : Inputs) : bool :=
  enabled_of (longControlState (sm i)) && negb (first_loop self)
  && negb (gasPressed (sm i)).

(** The forced deceleration (lines 228-231).  [accel_limits_turns] is the
    list [accel_limits] itself, so the two assignments act on the bounds
    computed by [calc_cruise_accel_limits]; the result is the pair that
    [update] passes to [choose_cruise]. *)
Definition force_decel_limits (force_slow_decel : bool) (accel_limits : Q * Q)
  : Q * Q :=
  if force_slow_decel then
    let a1 := Qmin (snd accel_limits) AWARENESS_DECEL in
    let a0 := Qmin (fst accel_limits) a1 in
    (a0, a1)
  else accel_limits.

(** [update] is written below as the sequence of its steps; each step is a
    definition of its own, named after what the lines do. *)

(** Lines 204-205: the set speed, capped and converted to m/s. *)
Definition v_cruise_setpoint_of (i : Inputs) : Q :=
  let v_cruise_kph := vCruise (sm i) in
  let v_cruise_kph := Qmin v_cruise_kph V_CRUISE_MAX in
  v_cruise_kph * KPH_TO_MS CV.

(** Lines 213-217: the configuration is read again every 1000 cycles. *)
Definition reload_kegman (self : Planner) (i : Inputs) : Planner :=
  let self :=
    if (mpc_frame self mod 1000 =? 0)%Z
    then set_mpc_frame (set_kegman self (kegman_file i)) 0%Z else self in
  set_mpc_frame self (mpc_frame self + 1)%Z.

(** Lines 219-220. *)
Definition shift_anchor (self : Planner) : Planner :=
  let self := set_v_acc_start self (v_acc_next self) in
  set_a_acc_start self (a_acc_next self).

(** Lines 233-241: the pair returned by [choose_cruise] becomes the cruise
    candidate, its speed floored at zero. *)
Definition commit_cruise (r : Planner * (Q * Q)) : Planner :=
  let '(self, (v, a)) := r in
  let self := set_a_cruise (set_v_cruise self v) a in
  set_v_cruise self (Qmax (v_cruise self) 0.0).

(** Lines 224-241: the cruise speed when the planner is engaged. *)
Definition plan_cruise (self : Planner) (i : Inputs) : option Planner :=
  let v_ego := vEgo (sm i) in
  let a_ego := aEgo (sm i) in
  let gasbrake := actuators_gas (sm i) - actuators_brake (sm i) in
  let force_slow_decel := forceDecel (sm i) in
  let following := following_of (leadOne (sm i)) v_ego in
  accel_limits <- calc_cruise_accel_limits v_ego following
                    (accelerationMode (kegman self)) ;;
  let jerk_limits :=
    (Qmin (-0.1) (fst accel_limits), Qmax 0.1 (snd accel_limits)) in
  let accel_limits_turns := force_decel_limits force_slow_decel accel_limits in
  r <- choose_cruise self v_ego a_ego (v_cruise_setpoint_of i)
         accel_limits_turns jerk_limits gasbrake ;;
  Some (commit_cruise r).

(** Lines 243-253: the reset taken when the planner is not engaged, on the
    first cycle, or while the driver presses the gas. *)
Definition safety_reset (self : Planner) (i : Inputs) : Planner :=
  let v_ego := vEgo (sm i) in
  let a_ego := aEgo (sm i) in
  let starting :=
    LongCtrlState.eqb (longControlState (sm i)) LongCtrlState.starting in
  let a_ego := Qmin a_ego 0.0 in
  let reset_speed := if starting then minSpeedCan (CP self) else v_ego in
  let reset_accel := if starting then startAccel (CP self) else a_ego in
  let self := set_v_acc self reset_speed in
  let self := set_a_acc self reset_accel in
  let self := set_v_acc_start self reset_speed in
  let self := set_a_acc_start self reset_accel in
  let self := set_v_cruise self reset_speed in
  let self := set_a_cruise self reset_accel in
  set_cruise_source self Source.cruiseCoast.

(** Lines 255-259: both trackers are re-anchored and advanced. *)
Definition advance_leads (self : Planner) (i : Inputs) : Planner :=
  let self :=
    set_mpc1 self
      (set_cur_state (mpc1 self) (v_acc_start self) (a_acc_start self)) in
  let self :=
    set_mpc2 self
      (set_cur_state (mpc2 self) (v_acc_start self) (a_acc_start self)) in
  let self := set_mpc1 self (mpc_update (mpc1 self) (sm i) (leadOne (sm i))) in
  set_mpc2 self (mpc_update (mpc2 self) (sm i) (leadTwo (sm i))).

(** Lines 278-283: the anchor of the next cycle. *)
Definition interpolate (self : Planner) (i : Inputs) : Planner :=
  let a_acc_sol :=
    a_acc_start self
    + (radarTimeStep (CP_arg i) / LON_MPC_STEP)
      * (a_acc self - a_acc_start self) in
  let v_acc_sol :=
    v_acc_start self
    + radarTimeStep (CP_arg i) * (a_acc_sol + a_acc_start self) / 2.0 in
  let self := set_v_acc_next self v_acc_sol in
  let self := set_a_acc_next self a_acc_sol in
  set_first_loop self false.

Definition update (self : Planner) (i : Inputs) : option Planner :=
  let enabled := enabled_of (longControlState (sm i)) in
  let self := reload_kegman self i in
  let self := shift_anchor self in
  self <- (if enabled && negb (first_loop self) && negb (gasPressed (sm i))
           then plan_cruise self i
           else Some (safety_reset self i)) ;;
  let self := advance_leads self i in
  self <- choose_solution self (v_cruise_setpoint_of i) enabled ;;
  Some (interpolate self i).

(** Running [update] over a sequence of cycles. *)
Fixpoint run (self : Planner) (cycles : list Inputs) : option Planner :=
  match cycles with
  | [] => Some self
  | i :: rest => self' <- update self i ;; run self' rest
  end.

(** The planner states that [__init__] followed by calls of [update] can
    produce. *)
Inductive reachable : Planner -> Prop :=
| reachable_init : forall cp conf, reachable (init cp conf)
| reachable_update : forall self i self',
    reachable self -> update self i = Some self' -> reachable self'.

End PlannerModel.

Arguments Planner M : clear implicits.

(** ** [limit_accel_in_turns]

    [math.sqrt] has no rational model, so this function is embedded over the
    reals.  [update] does not call it (the call is commented out).

    The three exceptions the arithmetic of lines 77-78 can raise are
    modelled: [ZeroDivisionError] of the division, [OverflowError] of the two
    squares [x**2] whose result is too large for a float, and [ValueError] of
    [math.sqrt].  A product or a quotient that overflows gives an infinity
    without raising; such inputs, like every infinity, are outside the
    model, and the properties below assume the intermediate results
    finite. *)
Module Turns.
Local Open Scope R_scope.

Definition Rle_bool (a b : R) : bool := if Rle_dec a b then true else false.

(** Modelled from the spec: [interp], as above, on reals. *)
Definition interp (x : R) (xp fp : list R) : R :=
  interp_gen R Rle_bool Rplus Rminus Rmult Rdiv 0 x xp fp.

Definition _A_TOTAL_MAX_V : list R := [3.5; 4.0; 5.0].
Definition _A_TOTAL_MAX_BP : list R := [0; 25; 55].
Definition _A_TOTAL_MAX_V_SOC : list R := [1.7; 3.2].
Definition _A_TOTAL_MAX_BP_SOC : list R := [20; 40].

(** [CV.DEG_TO_RAD]. *)
Definition DEG_TO_RAD : R := PI / 180.

(** [math.sqrt(x)]: a [ValueError] on a negative argument. *)
Definition math_sqrt (x : R) : option R :=
  if Rlt_dec x 0 then None else Some (sqrt x).

(** The least magnitude that does not round to a finite float: halfway
    between the largest float, [2^1024 - 2^971], and [2^1024]. *)
Definition FLOAT_OVERFLOW : R := 2 ^ 1024 - 2 ^ 970.

(** A real that a finite float can stand for. *)
Definition finite_float (x : R) : Prop := Rabs x < FLOAT_OVERFLOW.

(** [x ** 2] on a float: an [OverflowError] when the square is out of the
    range of floats. *)
Definition pow2 (x : R) : option R :=
  if Rle_dec FLOAT_OVERFLOW (x ^ 2) then None else Some (x ^ 2).

(** Float division: a [ZeroDivisionError] on a zero divisor. *)
Definition truediv (a b : R) : option R :=
  if Req_dec_T b 0 then None else Some (a / b).

(** [slowOnCurves] is [int(kegman.conf['slowOnCurves'])]; [a_target] is the
    pair [(a_target[0], a_target[1])]; [steerRatio] and [wheelbase] are the
    two fields read from [CP]. *)
Definition limit_accel_in_turns (slowOnCurves : Z) (v_ego angle_steers : R)
  (a_target : R * R) (steerRatio wheelbase : R) : option (R * R) :=
  let a_total_max :=
    if negb (slowOnCurves =? 0)%Z
    then interp v_ego _A_TOTAL_MAX_BP_SOC _A_TOTAL_MAX_V_SOC
    else interp v_ego _A_TOTAL_MAX_BP _A_TOTAL_MAX_V in
  v_ego_2 <- pow2 v_ego ;;
  a_y <- truediv (v_ego_2 * angle_steers * DEG_TO_RAD)
           (steerRatio * wheelbase) ;;
  a_total_max_2 <- pow2 a_total_max ;;
  a_y_2 <- pow2 a_y ;;
  a_x_allowed <- math_sqrt (Rmax (a_total_max_2 - a_y_2) 0) ;;
  Some (fst a_target, Rmin (snd a_target) a_x_allowed).

End Turns.

(** ** Vocabulary of the properties *)

(** [lo <= y <= hi]. *)
Definition within (lo hi y : Q) : Prop := lo <= y /\ y <= hi.

Section PlannerProperties.
Context {M : Type} `{LongitudinalMpc M}.
Variable speed_smoother : Q -> Q -> Q -> Q -> Q -> Q -> Q -> Q -> Q * Q.
Variable CV : Conversions.

(** The three cruise variants. *)
Definition is_cruise (s : Source.t) : Prop :=
  s = Source.cruiseCoast \/ s = Source.cruiseGas \/ s = Source.cruiseBrake.

(** The candidate set of the arbiter, as [(source, (speed, accel))]: the
    cruise candidate under [cruise_source], and a lead tracker's candidate
    when that tracker reports an active lead. *)
Definition candidates (self : Planner M) : list (Source.t * (Q * Q)) :=
  (cruise_source self, (v_cruise self, a_cruise self))
  :: (if prev_lead_status (mpc1 self)
      then [(Source.mpc1, (v_mpc (mpc1 self), a_mpc (mpc1 self)))] else [])
  ++ (if prev_lead_status (mpc2 self)
      then [(Source.mpc2, (v_mpc (mpc2 self), a_mpc (mpc2 self)))] else []).

(** The net actuator command of a cycle. *)
Definition gasbrake_of (i : Inputs) : Q :=
  actuators_gas (sm i) - actuators_brake (sm i).

(** A cycle that is engaged, without the driver on the gas pedal, and with a
    strictly positive actuator command. *)
Definition gas_cycle (i : Inputs) : Prop :=
  enabled_of (longControlState (sm i)) = true
  /\ gasPressed (sm i) = false
  /\ 0 < gasbrake_of i.

(** The anchor that [choose_cruise] hands to the smoother: the measured
    state when the previous source was coasting, else the carried anchor. *)
Definition anchor (self : Planner M) (v_ego a_ego : Q) : Q * Q :=
  match source self with
  | Source.cruiseCoast => (v_ego, a_ego)
  | _ => (v_acc_start self, a_acc_start self)
  end.

(** The three candidates of the cruise state machine. *)
Definition cruise_candidate (self : Planner M) (v_ego a_ego v_cruise_setpoint : Q)
  (accel_limits_turns jerk_limits : Q * Q) (s : Source.t) : option (Q * Q) :=
  let '(v0, a0) := anchor self v_ego a_ego in
  match s with
  | Source.cruiseCoast => Some (v_ego, a_ego)
  | Source.cruiseGas =>
      Some (speed_smoother v0 a0 v_cruise_setpoint
              (snd accel_limits_turns) (fst accel_limits_turns)
              (snd jerk_limits) (fst jerk_limits) LON_MPC_STEP)
  | Source.cruiseBrake =>
      Some (speed_smoother v0 a0 (v_cruise_setpoint + COAST_SPEED CV)
              (snd accel_limits_turns) (fst accel_limits_turns)
              (snd jerk_limits) (fst jerk_limits) LON_MPC_STEP)
  | _ => None
  end.

(** [cruise_source] after the hand-over from lead following (lines
    158-159), before any reselection. *)
Definition handed_over (self : Planner M) (gasbrake : Q) : Source.t :=
  match source self with
  | Source.mpc1 | Source.mpc2 =>
      if Qle_bool 0 gasbrake then Source.cruiseGas else Source.cruiseBrake
  | _ => cruise_source self
  end.

End PlannerProperties.

(** ** Stand-ins for the external collaborators, for concrete runs *)

Record LeadFollower : Set := {
  has_lead : bool;
  v_sol : Q;
  a_sol : Q;
  v_sol_future : Q
}.

#[export] Instance LeadFollower_mpc : LongitudinalMpc LeadFollower := {
  mpc_new := fun _ =>
    {| has_lead := false; v_sol := 0; a_sol := 0; v_sol_future := 0 |};
  prev_lead_status := has_lead;
  new_lead := fun _ => false;
  v_mpc := v_sol;
  a_mpc := a_sol;
  v_mpc_future := v_sol_future;
  set_cur_state := fun m _ _ => m;
  mpc_update := fun _ _ lead =>
    {| has_lead := status lead; v_sol := vLeadK lead; a_sol := aLeadK lead;
       v_sol_future := vLeadK lead |}
}.

(** A smoother that reaches the target at once, at the largest
    acceleration. *)
Definition step_smoother (v_start a_start v_target a_max a_min j_max j_min dt : Q)
  : Q * Q := (v_target, a_max).

Definition metric : Conversions :=
  {| MPH_TO_MS := 0.44704; KPH_TO_MS := 1 / 3.6 |}.

Definition car : CarParams :=
  {| minSpeedCan := 0.3; startAccel := 1.2; radarTimeStep := 0.05 |}.

Definition no_lead : Lead :=
  {| status := false; dRel := 0; vLeadK := 0; aLeadK := 0 |}.

Definition lead_ahead : Lead :=
  {| status := true; dRel := 25; vLeadK := 21; aLeadK := 1 |}.

(** A planner on [Gas] whose cruise candidate ties at 10 m/s with the first
    lead tracker; the second tracker won the previous arbitration. *)
Definition tied_planner : Planner LeadFollower :=
  {| CP := car;
     mpc1 := {| has_lead := true; v_sol := 10; a_sol := -1; v_sol_future := 9 |};
     mpc2 := {| has_lead := true; v_sol := 12; a_sol := 0.5; v_sol_future := 13 |};
     v_acc_start := 11; a_acc_start := 0; v_acc_next := 11; a_acc_next := 0;
     v_acc := 11; v_acc_future := 11; a_acc := 0;
     v_cruise := 10; a_cruise := 0.4;
     source := Source.mpc2; cruise_source := Source.cruiseGas;
     kegman := {| accelerationMode := 1 |}; mpc_frame := 7%Z;
     first_loop := false; coast_enabled := true |}.

(** The car at 20 m/s with a set speed of 90 km/h and a lead ahead; the
    control state and the actuator command vary. *)
Definition cycle_with (state : LongCtrlState.t) (v_ego gas brake : Q) : Inputs :=
  {| sm := {| vEgo := v_ego; aEgo := 0.5; gasPressed := false;
              actuators_gas := gas; actuators_brake := brake;
              longControlState := state; vCruise := 90; forceDecel := false;
              leadOne := lead_ahead; leadTwo := no_lead |};
     CP_arg := car;
     kegman_file := {| accelerationMode := 1 |} |}.

(** An engaged cycle with the forced slow deceleration requested. *)
Definition forced_cycle : Inputs :=
  {| sm := {| vEgo := 20; aEgo := 0.5; gasPressed := false;
              actuators_gas := 0.2; actuators_brake := 0;
              longControlState := LongCtrlState.pid; vCruise := 90;
              forceDecel := true;
              leadOne := lead_ahead; leadTwo := no_lead |};
     CP_arg := car;
     kegman_file := {| accelerationMode := 1 |} |}.

(** A planner on [Brake], following the first tracker. *)
Definition braking_planner : Planner LeadFollower :=
  {| CP := car;
     mpc1 := {| has_lead := true; v_sol := 18; a_sol := -0.5; v_sol_future := 17 |};
     mpc2 := {| has_lead := false; v_sol := 0; a_sol := 0; v_sol_future := 0 |};
     v_acc_start := 19; a_acc_start := -0.4; v_acc_next := 19; a_acc_next := -0.4;
     v_acc := 18; v_acc_future := 17; a_acc := -0.5;
     v_cruise := 24; a_cruise := -0.3;
     source := Source.mpc1; cruise_source := Source.cruiseBrake;
     kegman := {| accelerationMode := 0 |}; mpc_frame := 412%Z;
     first_loop := false; coast_enabled := true |}.

(** An engaged cycle with the driver on the gas pedal. *)
Definition override_cycle : Inputs :=
  {| sm := {| vEgo := 22; aEgo := 0.8; gasPressed := true;
              actuators_gas := 0; actuators_brake := 0;
              longControlState := LongCtrlState.pid; vCruise := 90;
              forceDecel := false;
              leadOne := lead_ahead; leadTwo := no_lead |};
     CP_arg := car;
     kegman_file := {| accelerationMode := 2 |} |}.

(** An engaged cycle at 20 m/s with the controller on the gas (a command of
    0.3) while the driver presses the gas pedal as well. *)
Definition pressed_cycle : Inputs :=
  {| sm := {| vEgo := 20; aEgo := 0.5; gasPressed := true;
              actuators_gas := 0.3; actuators_brake := 0;
              longControlState := LongCtrlState.pid; vCruise := 90;
              forceDecel := false;
              leadOne := lead_ahead; leadTwo := no_lead |};
     CP_arg := car;
     kegman_file := {| accelerationMode := 1 |} |}.
(** * Proofs *)

(** ** Python primitives *)

Lemma Qlt_bool_iff (a b : Q) : Qlt_bool a b = true <-> a < b.
Proof.
  unfold Qlt_bool. rewrite negb_true_iff.
  split; intro H.
  - apply Qnot_le_lt. intro Hle. apply Qle_bool_iff in Hle. congruence.
  - destruct (Qle_bool b a) eqn:E; [|reflexivity].
    apply Qle_bool_iff in E. apply Qle_not_lt in E. contradiction.
Qed.

Lemma Qlt_bool_false (a b : Q) : Qlt_bool a b = false <-> b <= a.
Proof.
  unfold Qlt_bool. rewrite negb_false_iff. apply Qle_bool_iff.
Qed.

Lemma Qmin_python (a b : Q) : Qmin a b = if Qlt_bool b a then b else a.
Proof.
  unfold Qmin, GenericMinMax.gmin.
  destruct (a ?= b) eqn:E.
  - apply Qeq_alt in E. destruct (Qlt_bool b a) eqn:L; [|reflexivity].
    apply Qlt_bool_iff in L. lra.
  - apply Qlt_alt in E. destruct (Qlt_bool b a) eqn:L; [|reflexivity].
    apply Qlt_bool_iff in L. lra.
  - apply Qgt_alt in E. destruct (Qlt_bool b a) eqn:L; [reflexivity|].
    apply Qlt_bool_false in L. lra.
Qed.

Lemma Qmax_python (a b : Q) : Qmax a b = if Qlt_bool a b then b else a.
Proof.
  unfold Qmax, GenericMinMax.gmax.
  destruct (a ?= b) eqn:E.
  - apply Qeq_alt in E. destruct (Qlt_bool a b) eqn:L; [|reflexivity].
    apply Qlt_bool_iff in L. lra.
  - apply Qlt_alt in E. destruct (Qlt_bool a b) eqn:L; [reflexivity|].
    apply Qlt_bool_false in L. lra.
  - apply Qgt_alt in E. destruct (Qlt_bool a b) eqn:L; [|reflexivity].
    apply Qlt_bool_iff in L. lra.
Qed.

(** ** Interpolation stays within the table *)

Lemma segment_within (lo hi x x0 x1 y0 y1 : Q) :
  x0 < x -> x <= x1 -> within lo hi y0 -> within lo hi y1 ->
  within lo hi ((x - x0) * (y1 - y0) / (x1 - x0) + y0).
Proof.
  unfold within. intros Hx0 Hx1 [Hl0 Hh0] [Hl1 Hh1].
  assert (Hd : 0 < x1 - x0) by lra.
  set (t := (x - x0) / (x1 - x0)).
  assert (Ht : t * (x1 - x0) == x - x0).
  { unfold t. field. lra. }
  assert (Hv : (x - x0) * (y1 - y0) / (x1 - x0) + y0 == y0 + t * (y1 - y0)).
  { unfold t. field. lra. }
  rewrite Hv.
  assert (Ht0 : 0 <= t) by nra.
  assert (Ht1 : t <= 1) by nra.
  split; nra.
Qed.

Lemma interp_from_within (lo hi x : Q) (xp fp : list Q) :
  forall x0 y0,
    x0 < x -> within lo hi y0 -> Forall (within lo hi) fp ->
    within lo hi (interp_from Q Qle_bool Qplus Qminus Qmult Qdiv x x0 y0 xp fp).
Proof.
  revert fp. induction xp as [|x1 xp IH]; intros fp x0 y0 Hx Hy Hfp.
  - exact Hy.
  - destruct fp as [|y1 fp]; [exact Hy|].
    inversion Hfp as [|? ? Hy1 Hfp']; subst.
    cbn [interp_from].
    destruct (Qle_bool x x1) eqn:E.
    + apply Qle_bool_iff in E. now apply segment_within.
    + apply IH; auto.
      apply Qnot_le_lt. intro Hle. apply Qle_bool_iff in Hle. congruence.
Qed.

Lemma interp_within (lo hi x x0 y0 : Q) (xp fp : list Q) :
  Forall (within lo hi) (y0 :: fp) ->
  within lo hi (interp x (x0 :: xp) (y0 :: fp)).
Proof.
  intros Hfp. inversion Hfp as [|? ? Hy0 Hfp']; subst.
  unfold interp, interp_gen.
  destruct (Qle_bool x x0) eqn:E; [exact Hy0|].
  apply interp_from_within; auto.
  apply Qnot_le_lt. intro Hle. apply Qle_bool_iff in Hle. congruence.
Qed.

Ltac table_within :=
  repeat (apply Forall_cons; [split; vm_compute; discriminate|]);
  apply Forall_nil.

Lemma a_cruise_min_upper (v_ego : Q) :
  interp v_ego _A_CRUISE_MIN_BP _A_CRUISE_MIN_V <= -0.5.
Proof.
  apply (interp_within (-2) (-0.5)). table_within.
Qed.

Lemma a_cruise_max_lower (v_ego : Q) (tbl : list Q) :
  In tbl (_A_CRUISE_MAX_V_FOLLOWING :: _A_CRUISE_MAX_V_MODE_LIST) ->
  0.2 <= interp v_ego _A_CRUISE_MAX_BP tbl.
Proof.
  intros Hin. cbn in Hin.
  destruct Hin as [<-|[<-|[<-|[<-|[]]]]];
    apply (interp_within 0.2 3.5); table_within.
Qed.

Lemma mode_index_range (accelMode : Z) :
  (0 <= _A_CRUISE_MAX_V_MODE_LIST_INDEX accelMode <= 2)%Z.
Proof.
  unfold _A_CRUISE_MAX_V_MODE_LIST_INDEX. cbn [length _A_CRUISE_MAX_V_MODE_LIST].
  lia.
Qed.

Lemma mode_table_defined (accelMode : Z) :
  exists tbl,
    list_getitem _A_CRUISE_MAX_V_MODE_LIST
      (_A_CRUISE_MAX_V_MODE_LIST_INDEX accelMode) = Some tbl
    /\ In tbl _A_CRUISE_MAX_V_MODE_LIST.
Proof.
  pose proof (mode_index_range accelMode) as Hr.
  assert (Hc : (_A_CRUISE_MAX_V_MODE_LIST_INDEX accelMode = 0
                \/ _A_CRUISE_MAX_V_MODE_LIST_INDEX accelMode = 1
                \/ _A_CRUISE_MAX_V_MODE_LIST_INDEX accelMode = 2)%Z) by lia.
  destruct Hc as [-> | [-> | ->]]; eexists; (split; [reflexivity|]);
    cbn; auto.
Qed.

(** C5.  For every speed, following flag and integer mode selector,
    [calc_cruise_accel_limits] returns a pair (it never raises: the mode
    index is clamped into [0, 2]) whose lower bound is at most its upper
    bound. *)
Theorem calc_cruise_accel_limits_ordered (v_ego : Q) (following : bool)
  (accelMode : Z) :
  (0 <= _A_CRUISE_MAX_V_MODE_LIST_INDEX accelMode <= 2)%Z
  /\ exists a_min a_max,
       calc_cruise_accel_limits v_ego following accelMode = Some (a_min, a_max)
       /\ a_min <= a_max.
Proof.
  split; [apply mode_index_range|].
  pose proof (a_cruise_min_upper v_ego) as Hmin.
  unfold calc_cruise_accel_limits. destruct following.
  - do 2 eexists. split; [reflexivity|].
    pose proof (a_cruise_max_lower v_ego _A_CRUISE_MAX_V_FOLLOWING
                  (or_introl eq_refl)) as Hmax.
    lra.
  - destruct (mode_table_defined accelMode) as (tbl & -> & Hin).
    cbn [bind]. do 2 eexists. split; [reflexivity|].
    pose proof (a_cruise_max_lower v_ego tbl (or_intror Hin)) as Hmax.
    lra.
Qed.

(** ** The following curve against the Normal curve *)

Lemma segment_linear (s x x0 x1 y0 y1 : Q) :
  x0 < x1 -> s * (x1 - x0) == y1 - y0 ->
  (x - x0) * (y1 - y0) / (x1 - x0) + y0 == y0 + s * (x - x0).
Proof.
  intros Hlt Hs. rewrite <- Hs. field. lra.
Qed.

Lemma Qle_bool_false (a b : Q) : Qle_bool a b = false -> b < a.
Proof.
  intros E. apply Qnot_le_lt. intro Hle. apply Qle_bool_iff in Hle. congruence.
Qed.

Ltac linear_segments :=
  repeat match goal with
  | |- context [(?x - ?x0) * (?y1 - ?y0) / (?x1 - ?x0) + ?y0] =>
      let s := eval vm_compute in (Qred ((y1 - y0) / (x1 - x0))) in
      rewrite (segment_linear s x x0 x1 y0 y1) by reflexivity
  end.

Ltac split_breakpoints v :=
  repeat match goal with
  | |- context [Qle_bool v ?c] =>
      let E := fresh "E" in
      destruct (Qle_bool v c) eqn:E;
      [apply Qle_bool_iff in E | apply Qle_bool_false in E]
  end.

Lemma following_vs_normal (v_ego : Q) :
  interp v_ego _A_CRUISE_MAX_BP _A_CRUISE_MAX_V_FOLLOWING
    <= interp v_ego _A_CRUISE_MAX_BP _A_CRUISE_MAX_V
  <-> (v_ego <= 40 # 3 \/ 55 <= v_ego).
Proof.
  cbv [interp interp_gen interp_from _A_CRUISE_MAX_BP
       _A_CRUISE_MAX_V_FOLLOWING _A_CRUISE_MAX_V].
  split_breakpoints v_ego; linear_segments; lra.
Qed.

Lemma following_of_true (lead_1 : Lead) (v_ego : Q) :
  status lead_1 = true -> dRel lead_1 <= 30 ->
  v_ego < vLeadK lead_1 -> 0 < aLeadK lead_1 ->
  following_of lead_1 v_ego = true.
Proof.
  intros Hs Hd Hv Ha. unfold following_of. rewrite Hs.
  assert (H45 : dRel lead_1 < 45.0) by lra.
  apply Qlt_bool_iff in H45, Hv. rewrite H45, Hv.
  assert (Ha' : 0.0 < aLeadK lead_1) by lra.
  apply Qlt_bool_iff in Ha'. rewrite Ha'. reflexivity.
Qed.

(** C6, as amended.  With an active lead within 30 m that is faster than
    ego and accelerating, the following flag is true and the upper bound is
    the following curve at the current speed; that value is at most the
    Normal-mode value at the same speed exactly when the speed is at most
    40/3 m/s or at least 55 m/s. *)
Theorem following_a_max (lead_1 : Lead) (v_ego : Q) (accelMode : Z) :
  status lead_1 = true -> dRel lead_1 <= 30 ->
  v_ego < vLeadK lead_1 -> 0 < aLeadK lead_1 ->
  following_of lead_1 v_ego = true
  /\ calc_cruise_accel_limits v_ego (following_of lead_1 v_ego) accelMode
     = Some (interp v_ego _A_CRUISE_MIN_BP _A_CRUISE_MIN_V,
             interp v_ego _A_CRUISE_MAX_BP _A_CRUISE_MAX_V_FOLLOWING)
  /\ (interp v_ego _A_CRUISE_MAX_BP _A_CRUISE_MAX_V_FOLLOWING
        <= interp v_ego _A_CRUISE_MAX_BP _A_CRUISE_MAX_V
      <-> (v_ego <= 40 # 3 \/ 55 <= v_ego)).
Proof.
  intros Hs Hd Hv Ha.
  pose proof (following_of_true lead_1 v_ego Hs Hd Hv Ha) as Hf.
  split; [exact Hf|]. split.
  - rewrite Hf. reflexivity.
  - apply following_vs_normal.
Qed.

Lemma following_a_max_witness :
  following_of lead_ahead 20 = true
  /\ calc_cruise_accel_limits 20 (following_of lead_ahead 20) 1
     = Some (interp 20 _A_CRUISE_MIN_BP _A_CRUISE_MIN_V,
             interp 20 _A_CRUISE_MAX_BP _A_CRUISE_MAX_V_FOLLOWING)
  /\ (interp 20 _A_CRUISE_MAX_BP _A_CRUISE_MAX_V_FOLLOWING
        <= interp 20 _A_CRUISE_MAX_BP _A_CRUISE_MAX_V
      <-> (20 <= 40 # 3 \/ 55 <= 20)).
Proof.
  apply (following_a_max lead_ahead 20 1).
  - reflexivity.
  - vm_compute. discriminate.
  - reflexivity.
  - reflexivity.
Defined.

(** C6 as stated fails: at 20 m/s the following curve gives 0.7 and the
    Normal curve 0.5. *)
Lemma following_above_normal_at_20 :
  ~ (forall (lead_1 : Lead) (v_ego : Q) (accelMode : Z),
        status lead_1 = true -> dRel lead_1 <= 30 ->
        v_ego < vLeadK lead_1 -> 0 < aLeadK lead_1 ->
        following_of lead_1 v_ego = true
        /\ exists a_min a_max,
             calc_cruise_accel_limits v_ego (following_of lead_1 v_ego) accelMode
             = Some (a_min, a_max)
             /\ a_max <= interp v_ego _A_CRUISE_MAX_BP _A_CRUISE_MAX_V).
Proof.
  intros Hclaim.
  destruct (Hclaim lead_ahead 20 1%Z) as (_ & a_min & a_max & Hcalc & Hle).
  - reflexivity.
  - vm_compute. discriminate.
  - reflexivity.
  - reflexivity.
  - vm_compute in Hcalc. injection Hcalc as _ <-.
    vm_compute in Hle. apply Hle. reflexivity.
Qed.

(** ** Forced deceleration *)

Lemma force_decel_limits_ordered (accel_limits : Q * Q) :
  snd (force_decel_limits true accel_limits) <= AWARENESS_DECEL
  /\ fst (force_decel_limits true accel_limits)
     <= snd (force_decel_limits true accel_limits).
Proof.
  unfold force_decel_limits. cbn [fst snd]. split.
  - apply Q.le_min_r.
  - apply Q.le_min_r.
Qed.

(** ** Arbitration *)

Section Arbitration.
Context {M : Type} `{LongitudinalMpc M}.

Lemma Source_eqb_eq (a b : Source.t) : Source.eqb a b = true <-> a = b.
Proof. destruct a, b; cbn; split; intro E; congruence. Qed.

Ltac compare_speeds :=
  repeat match goal with
  | |- context [Qlt_bool ?a ?b] =>
      let E := fresh "E" in
      destruct (Qlt_bool a b) eqn:E;
      [apply Qlt_bool_iff in E | apply Qlt_bool_false in E]
  end.

Ltac candidate_cases Hc :=
  repeat match type of Hc with
  | _ \/ _ => destruct Hc as [Hc | Hc]
  | (_, _) = (_, _) => injection Hc as <- <- <-
  | False => contradiction
  end.

(** C1.  With [enabled] true and [cruise_source] one of the cruise variants,
    [choose_solution] commits a member of the candidate set whose speed is
    least among the candidates; when the cruise speed is itself least (so in
    particular on a tie with a lead tracker) the cruise source is chosen; and
    [v_acc], [a_acc] are the speed and acceleration of the chosen
    candidate. *)
Theorem choose_solution_minimum (self : Planner M) (v_cruise_setpoint : Q) :
  is_cruise (cruise_source self) ->
  exists self',
    choose_solution self v_cruise_setpoint true = Some self'
    /\ In (source self', (v_acc self', a_acc self')) (candidates self)
    /\ (forall k v a, In (k, (v, a)) (candidates self) -> v_acc self' <= v)
    /\ ((forall k v a, In (k, (v, a)) (candidates self) -> v_cruise self <= v)
        -> source self' = cruise_source self).
Proof.
  intros Hc.
  unfold choose_solution, solutions, candidates.
  destruct (prev_lead_status (mpc1 self)) eqn:L1;
    destruct (prev_lead_status (mpc2 self)) eqn:L2;
    destruct Hc as [Hc | [Hc | Hc]]; rewrite !Hc;
    cbn [dict_set dict_min_key min_key_from Source.eqb bind app];
    compare_speeds;
    cbn [Source.eqb bind];
    eexists; (split; [reflexivity|]);
    cbn [source v_acc a_acc set_source set_v_acc set_a_acc set_v_acc_future
         mpc1 mpc2 v_cruise a_cruise cruise_source];
    rewrite ?Hc;
    cbn [Source.eqb source v_acc a_acc set_source set_v_acc set_a_acc
         set_v_acc_future];
    (split; [cbn; tauto|]);
    (split;
     [ intros k v a Hin; cbn in Hin; candidate_cases Hin; lra
     | intros Hmin;
       try reflexivity;
       try (pose proof (Hmin _ _ _ (or_intror (or_introl eq_refl))); lra);
       try (pose proof (Hmin _ _ _ (or_intror (or_intror (or_introl eq_refl))));
            lra) ]).
Qed.

End Arbitration.

Lemma choose_solution_minimum_witness :
  exists self',
    choose_solution tied_planner 30 true = Some self'
    /\ In (source self', (v_acc self', a_acc self')) (candidates tied_planner)
    /\ (forall k v a, In (k, (v, a)) (candidates tied_planner) -> v_acc self' <= v)
    /\ ((forall k v a,
           In (k, (v, a)) (candidates tied_planner) -> v_cruise tied_planner <= v)
        -> source self' = cruise_source tied_planner).
Proof.
  apply (choose_solution_minimum tied_planner 30).
  right; left; reflexivity.
Defined.

(** On the tie at 10 m/s between the cruise candidate and the first lead
    tracker, the cruise candidate is committed. *)
Example choose_solution_tie :
  option_map (fun s => (source s, v_acc s, a_acc s))
    (choose_solution tied_planner 30 true)
  = Some (Source.cruiseGas, 10, 0.4).
Proof. reflexivity. Qed.

(** ** The cruise state machine *)

Section CruiseStrategy.
Context {M : Type} `{LongitudinalMpc M}.
Variable speed_smoother : Q -> Q -> Q -> Q -> Q -> Q -> Q -> Q -> Q * Q.
Variable CV : Conversions.

Ltac compare_accels :=
  repeat match goal with
  | |- context [Qle_bool ?a ?b] =>
      let E := fresh "E" in
      destruct (Qle_bool a b) eqn:E;
      [apply Qle_bool_iff in E | apply Qle_bool_false in E]
  end.

(** C7.  With coasting enabled (and [cruise_source] a cruise variant),
    [choose_cruise] returns the candidate that belongs to the resulting
    [cruise_source].  When [gasbrake] is zero the resulting [cruise_source]
    is [Brake] if [a_brake <= a_coast], else [Gas] if [a_gas >= a_coast],
    else [Coast]; when [gasbrake] is not zero no reselection takes place:
    [cruise_source] is what the hand-over from lead following left.  The
    coast candidate is the measured state, so [a_coast] is [a_ego]. *)
Theorem choose_cruise_reselect (self : Planner M)
  (v_ego a_ego v_cruise_setpoint : Q) (accel_limits_turns jerk_limits : Q * Q)
  (gasbrake : Q) :
  coast_enabled self = true ->
  is_cruise (cruise_source self) ->
  let candidate :=
    cruise_candidate speed_smoother CV self v_ego a_ego v_cruise_setpoint
      accel_limits_turns jerk_limits in
  exists self' r v_gas a_gas v_brake a_brake,
    candidate Source.cruiseGas = Some (v_gas, a_gas)
    /\ candidate Source.cruiseBrake = Some (v_brake, a_brake)
    /\ choose_cruise speed_smoother CV self v_ego a_ego v_cruise_setpoint
         accel_limits_turns jerk_limits gasbrake = Some (self', r)
    /\ candidate (cruise_source self') = Some r
    /\ (gasbrake == 0 ->
        (a_brake <= a_ego -> cruise_source self' = Source.cruiseBrake)
        /\ (a_ego < a_brake -> a_ego <= a_gas ->
            cruise_source self' = Source.cruiseGas)
        /\ (a_ego < a_brake -> a_gas < a_ego ->
            cruise_source self' = Source.cruiseCoast))
    /\ (~ gasbrake == 0 -> cruise_source self' = handed_over self gasbrake).
Proof.
  intros Hcoast Hc candidate. subst candidate.
  unfold choose_cruise, choose_cruise_coasting, cruise_candidate, anchor,
    handed_over.
  rewrite Hcoast. cbn [negb].
  destruct (Qeq_bool gasbrake 0) eqn:Ez;
    [apply Qeq_bool_iff in Ez | apply Qeq_bool_neq in Ez];
    destruct (source self) eqn:Es;
    cbn [Source.eqb orb v_acc_start a_acc_start set_v_acc_start set_a_acc_start
         set_cruise_source];
    destruct (speed_smoother _ _ v_cruise_setpoint _ _ _ _ _)
      as [v_gas a_gas] eqn:Eg;
    destruct (speed_smoother _ _ (v_cruise_setpoint + COAST_SPEED CV) _ _ _ _ _)
      as [v_brake a_brake] eqn:Eb;
    compare_accels; cbn [andb];
    cbn [cruise_source set_cruise_source set_v_acc_start set_a_acc_start
         dict_getitem Source.eqb bind];
    try lra;
    try (destruct Hc as [Hc | [Hc | Hc]]; rewrite Hc;
         cbn [dict_getitem Source.eqb bind]);
    do 6 eexists;
    (split; [reflexivity|]); (split; [reflexivity|]);
    (split; [reflexivity|]);
    cbn [cruise_source set_cruise_source set_v_acc_start set_a_acc_start
         source];
    rewrite ?Es, ?Hc; rewrite ?Eg, ?Eb;
    (split; [reflexivity|]);
    (split; [intros Hz; try (exfalso; lra);
             repeat split; intros; try reflexivity; lra
            |intros Hnz; try (exfalso; lra); reflexivity]).
Qed.

End CruiseStrategy.

(** ** The update cycle *)

Ltac planner_simpl :=
  cbn [CP mpc1 mpc2 v_acc_start a_acc_start v_acc_next a_acc_next v_acc
       v_acc_future a_acc v_cruise a_cruise source cruise_source kegman
       mpc_frame first_loop coast_enabled
       set_mpc1 set_mpc2 set_v_acc_start set_a_acc_start set_v_acc_next
       set_a_acc_next set_v_acc set_v_acc_future set_a_acc set_v_cruise
       set_a_cruise set_source set_cruise_source set_kegman set_mpc_frame
       set_first_loop
       reload_kegman shift_anchor safety_reset advance_leads interpolate
       commit_cruise
       bind andb orb negb fst snd Source.eqb dict_getitem].

Ltac planner_simpl_in H :=
  cbn [CP mpc1 mpc2 v_acc_start a_acc_start v_acc_next a_acc_next v_acc
       v_acc_future a_acc v_cruise a_cruise source cruise_source kegman
       mpc_frame first_loop coast_enabled
       set_mpc1 set_mpc2 set_v_acc_start set_a_acc_start set_v_acc_next
       set_a_acc_next set_v_acc set_v_acc_future set_a_acc set_v_cruise
       set_a_cruise set_source set_cruise_source set_kegman set_mpc_frame
       set_first_loop
       reload_kegman shift_anchor safety_reset advance_leads interpolate
       commit_cruise
       bind andb orb negb fst snd Source.eqb dict_getitem] in H.

Lemma calc_cruise_accel_limits_defined (v_ego : Q) (following : bool)
  (accelMode : Z) :
  exists accel_limits,
    calc_cruise_accel_limits v_ego following accelMode = Some accel_limits.
Proof.
  unfold calc_cruise_accel_limits. destruct following.
  - eexists. reflexivity.
  - destruct (mode_table_defined accelMode) as (tbl & -> & _).
    eexists. reflexivity.
Qed.

Section UpdateCycle.
Context {M : Type} `{LongitudinalMpc M}.
Variable speed_smoother : Q -> Q -> Q -> Q -> Q -> Q -> Q -> Q -> Q * Q.
Variable CV : Conversions.
Variable V_CRUISE_MAX : Q.

Local Abbreviation choose_cruise' := (choose_cruise speed_smoother CV).
Local Abbreviation plan_cruise' := (plan_cruise speed_smoother CV V_CRUISE_MAX).
Local Abbreviation update' := (update speed_smoother CV V_CRUISE_MAX).
Local Abbreviation run' := (run speed_smoother CV V_CRUISE_MAX).
Local Abbreviation setpoint' := (v_cruise_setpoint_of CV V_CRUISE_MAX).

(** What [choose_solution] leaves alone, and what it writes when the planner
    is not engaged. *)
Lemma choose_solution_frame (self : Planner M) (v_cruise_setpoint : Q)
  (enabled : bool) :
  exists self',
    choose_solution self v_cruise_setpoint enabled = Some self'
    /\ cruise_source self' = cruise_source self
    /\ coast_enabled self' = coast_enabled self
    /\ v_cruise self' = v_cruise self
    /\ a_cruise self' = a_cruise self
    /\ v_acc_future self'
       = Qmin (Qmin (v_mpc_future (mpc1 self)) (v_mpc_future (mpc2 self)))
           v_cruise_setpoint
    /\ (enabled = false ->
        source self' = source self /\ v_acc self' = v_acc self
        /\ a_acc self' = a_acc self).
Proof.
  unfold choose_solution. destruct enabled.
  - assert (Hk : exists k, dict_min_key (solutions self) = Some k).
    { unfold solutions.
      destruct (prev_lead_status (mpc1 self)), (prev_lead_status (mpc2 self));
        cbn [dict_set];
        repeat match goal with
               | |- context [if Source.eqb ?a ?b then _ else _] =>
                   destruct (Source.eqb a b); cbn [dict_set]
               end;
        eexists; reflexivity. }
    destruct Hk as [k ->]. cbn [bind].
    destruct (Source.eqb k Source.mpc1); [|destruct (Source.eqb k Source.mpc2);
      [|destruct (Source.eqb k (cruise_source (set_source self k)))]];
      eexists; (split; [reflexivity|]); planner_simpl;
      repeat split; intros; discriminate.
  - cbn [bind]. eexists. split; [reflexivity|]. planner_simpl.
    repeat split; reflexivity.
Qed.

(** [choose_cruise] returns on every planner whose [cruise_source] is a
    cruise variant, and keeps it one. *)
Lemma choose_cruise_defined (self : Planner M)
  (v_ego a_ego v_cruise_setpoint : Q) (accel_limits_turns jerk_limits : Q * Q)
  (gasbrake : Q) :
  is_cruise (cruise_source self) ->
  exists self' r,
    choose_cruise' self v_ego a_ego v_cruise_setpoint accel_limits_turns
      jerk_limits gasbrake = Some (self', r)
    /\ is_cruise (cruise_source self')
    /\ coast_enabled self' = coast_enabled self.
Proof.
  intros Hc. unfold choose_cruise, choose_cruise_coasting, is_cruise.
  destruct (coast_enabled self) eqn:Hce; cbn [negb].
  - destruct (source self);
      destruct (speed_smoother _ _ v_cruise_setpoint _ _ _ _ _);
      destruct (speed_smoother _ _ (v_cruise_setpoint + _) _ _ _ _ _);
      planner_simpl;
      destruct (Qeq_bool gasbrake 0); planner_simpl;
      repeat match goal with
             | |- context [Qle_bool ?a ?b] =>
                 destruct (Qle_bool a b); planner_simpl
             end;
      destruct Hc as [Hc | [Hc | Hc]]; rewrite ?Hc; planner_simpl;
      do 2 eexists; (split; [reflexivity|]); planner_simpl;
      rewrite ?Hc; auto.
  - do 2 eexists. split; [reflexivity|]. planner_simpl. auto.
Qed.

(** Once on [Gas], a strictly positive [gasbrake] keeps [choose_cruise] on
    [Gas]. *)
Lemma choose_cruise_keeps_gas (self : Planner M)
  (v_ego a_ego v_cruise_setpoint : Q) (accel_limits_turns jerk_limits : Q * Q)
  (gasbrake : Q) :
  cruise_source self = Source.cruiseGas -> 0 < gasbrake ->
  exists self' r,
    choose_cruise' self v_ego a_ego v_cruise_setpoint accel_limits_turns
      jerk_limits gasbrake = Some (self', r)
    /\ cruise_source self' = Source.cruiseGas.
Proof.
  intros Hc Hg. unfold choose_cruise, choose_cruise_coasting.
  destruct (coast_enabled self); cbn [negb].
  - assert (Hz : Qeq_bool gasbrake 0 = false).
    { destruct (Qeq_bool gasbrake 0) eqn:E; [|reflexivity].
      apply Qeq_bool_iff in E. lra. }
    assert (Hp : Qle_bool 0 gasbrake = true) by (apply Qle_bool_iff; lra).
    rewrite Hz, Hp.
    destruct (source self);
      destruct (speed_smoother _ _ v_cruise_setpoint _ _ _ _ _);
      destruct (speed_smoother _ _ (v_cruise_setpoint + _) _ _ _ _ _);
      planner_simpl; rewrite ?Hc; planner_simpl;
      do 2 eexists; (split; [reflexivity|]); planner_simpl; auto.
  - do 2 eexists. split; [reflexivity|]. reflexivity.
Qed.

(** The first steps of a cycle touch only the configuration, the frame
    counter and the anchor. *)
Lemma begin_cycle_frame (self : Planner M) (i : Inputs) :
  let s := shift_anchor (reload_kegman self i) in
  first_loop s = first_loop self
  /\ cruise_source s = cruise_source self
  /\ coast_enabled s = coast_enabled self
  /\ source s = source self
  /\ CP s = CP self.
Proof.
  unfold shift_anchor, reload_kegman.
  destruct (mpc_frame self mod 1000 =? 0)%Z; planner_simpl; repeat split.
Qed.

(** [update] returns on every planner whose [cruise_source] is a cruise
    variant, keeps it one, and never writes [coast_enabled]. *)
Lemma update_defined (self : Planner M) (i : Inputs) :
  is_cruise (cruise_source self) ->
  exists self',
    update' self i = Some self'
    /\ is_cruise (cruise_source self')
    /\ coast_enabled self' = coast_enabled self
    /\ first_loop self' = false.
Proof.
  intros Hc. unfold update.
  destruct (begin_cycle_frame self i) as (Hfl & Hcs & Hce & _ & _).
  set (s1 := shift_anchor (reload_kegman self i)) in *.
  rewrite <- Hcs in Hc. rewrite <- Hce. clearbody s1.
  destruct (enabled_of (longControlState (sm i)) && negb (first_loop s1)
            && negb (gasPressed (sm i))).
  - unfold plan_cruise.
    destruct (calc_cruise_accel_limits_defined (vEgo (sm i))
                (following_of (leadOne (sm i)) (vEgo (sm i)))
                (accelerationMode (kegman s1))) as [al ->].
    cbn [bind].
    match goal with
    | |- context [choose_cruise _ _ s1 ?a ?b ?c ?d ?e ?f] =>
        destruct (choose_cruise_defined s1 a b c d e f Hc)
          as (s2 & [v a'] & -> & Hc2 & Hce2)
    end.
    cbn [bind].
    match goal with
    | |- context [choose_solution ?s ?sp ?en] =>
        destruct (choose_solution_frame s sp en)
          as (s4 & -> & Hcs4 & Hce4 & _)
    end.
    cbn [bind]. eexists. split; [reflexivity|]. planner_simpl.
    rewrite Hcs4, Hce4. planner_simpl. auto.
  - cbn [bind].
    match goal with
    | |- context [choose_solution ?s ?sp ?en] =>
        destruct (choose_solution_frame s sp en)
          as (s4 & -> & Hcs4 & Hce4 & _)
    end.
    cbn [bind]. eexists. split; [reflexivity|]. planner_simpl.
    rewrite Hcs4, Hce4. planner_simpl. unfold is_cruise. auto.
Qed.

(** C4.  On the engaged path with the forced slow deceleration requested,
    [plan_cruise] calls [choose_cruise] with acceleration bounds
    [(a_min, a_max)] such that [a_max <= AWARENESS_DECEL] and
    [a_min <= a_max], and commits what that call returns. *)
Theorem forced_decel_bounds_passed (self : Planner M) (i : Inputs) :
  forceDecel (sm i) = true ->
  exists accel_limits_turns jerk_limits,
    snd accel_limits_turns <= AWARENESS_DECEL
    /\ fst accel_limits_turns <= snd accel_limits_turns
    /\ plan_cruise' self i
       = option_map commit_cruise
           (choose_cruise' self (vEgo (sm i)) (aEgo (sm i)) (setpoint' i)
              accel_limits_turns jerk_limits (gasbrake_of i)).
Proof.
  intros Hf. unfold plan_cruise. rewrite Hf.
  destruct (calc_cruise_accel_limits_defined (vEgo (sm i))
              (following_of (leadOne (sm i)) (vEgo (sm i)))
              (accelerationMode (kegman self))) as [al ->].
  cbn [bind].
  exists (force_decel_limits true al).
  eexists.
  destruct (force_decel_limits_ordered al) as [Hmax Hmin].
  split; [exact Hmax|]. split; [exact Hmin|].
  unfold gasbrake_of, bind, option_map. reflexivity.
Qed.

(** What every reachable planner satisfies. *)
Lemma reachable_invariant (self : Planner M) :
  reachable speed_smoother CV V_CRUISE_MAX self ->
  is_cruise (cruise_source self) /\ coast_enabled self = true.
Proof.
  induction 1 as [cp conf | self i self' _ [IHc IHe] Hup].
  - split; [left|]; reflexivity.
  - destruct (update_defined self i IHc) as (s & Hs & Hc & He & _).
    rewrite Hup in Hs. injection Hs as <-.
    split; [exact Hc | congruence].
Qed.

(** C10.  On every reachable planner, [coast_enabled] is [True], so
    [choose_cruise] never takes its early return: it is the three-candidate
    state machine. *)
Theorem coast_enabled_invariant (self : Planner M) :
  reachable speed_smoother CV V_CRUISE_MAX self ->
  coast_enabled self = true
  /\ forall v_ego a_ego v_cruise_setpoint accel_limits_turns jerk_limits
       gasbrake,
       choose_cruise' self v_ego a_ego v_cruise_setpoint accel_limits_turns
         jerk_limits gasbrake
       = choose_cruise_coasting speed_smoother CV self v_ego a_ego
           v_cruise_setpoint accel_limits_turns jerk_limits gasbrake.
Proof.
  intros Hr. destruct (reachable_invariant self Hr) as [_ He].
  split; [exact He|]. intros. unfold choose_cruise. rewrite He. reflexivity.
Qed.

(** One engaged cycle with a positive actuator command keeps [Gas]. *)
Lemma update_keeps_gas (self : Planner M) (i : Inputs) :
  cruise_source self = Source.cruiseGas ->
  cruise_path self i = true -> 0 < gasbrake_of i ->
  exists self',
    update' self i = Some self'
    /\ cruise_source self' = Source.cruiseGas
    /\ first_loop self' = false.
Proof.
  intros Hc Hp Hg. unfold update.
  destruct (begin_cycle_frame self i) as (Hfl & Hcs & _).
  set (s1 := shift_anchor (reload_kegman self i)) in *.
  rewrite <- Hcs in Hc. unfold cruise_path in Hp. rewrite <- Hfl in Hp.
  clearbody s1. rewrite Hp.
  unfold plan_cruise.
  destruct (calc_cruise_accel_limits_defined (vEgo (sm i))
              (following_of (leadOne (sm i)) (vEgo (sm i)))
              (accelerationMode (kegman s1))) as [al ->].
  cbn [bind].
  match goal with
  | |- context [choose_cruise _ _ s1 ?a ?b ?c ?d ?e ?f] =>
      destruct (choose_cruise_keeps_gas s1 a b c d e f Hc Hg)
        as (s2 & [v a'] & -> & Hc2)
  end.
  cbn [bind].
  match goal with
  | |- context [choose_solution ?s ?sp ?en] =>
      destruct (choose_solution_frame s sp en) as (s4 & -> & Hcs4 & _)
  end.
  cbn [bind]. eexists. split; [reflexivity|]. planner_simpl.
  rewrite Hcs4. planner_simpl. auto.
Qed.

(** C3, as amended.  Starting from [cruise_source = Gas], over any
    sequence of consecutive cycles that all take the engaged path (the
    planner is past its first cycle and every cycle of the sequence is
    engaged without the driver on the gas) with [gasbrake] strictly
    positive, the run is defined after every cycle and [cruise_source] is
    [Gas] there, whatever the smoother and the lead trackers compute and
    whatever [source] was. *)
Theorem gas_hysteresis (cycles : list Inputs) :
  forall self : Planner M,
    cruise_source self = Source.cruiseGas ->
    first_loop self = false ->
    Forall gas_cycle cycles ->
    forall n : nat,
    exists self',
      run' self (firstn n cycles) = Some self'
      /\ cruise_source self' = Source.cruiseGas.
Proof.
  induction cycles as [|i rest IH]; intros self Hc Hfl Hall n.
  - rewrite firstn_nil. exists self. split; [reflexivity | exact Hc].
  - destruct n as [|n].
    + exists self. split; [reflexivity | exact Hc].
    + inversion Hall as [|? ? (Hen & Hgp & Hg) Hrest]; subst.
      assert (Hp : cruise_path self i = true).
      { unfold cruise_path. rewrite Hen, Hfl, Hgp. reflexivity. }
      destruct (update_keeps_gas self i Hc Hp Hg) as (s & Hs & Hcs & Hfs).
      cbn [firstn run]. rewrite Hs. cbn [bind].
      apply IH; assumption.
Qed.

(** A cycle of a planner that is not engaged: the reset, then the trackers,
    then the arbiter, which only writes [v_acc_future]. *)
Lemma update_disabled (self : Planner M) (i : Inputs) :
  enabled_of (longControlState (sm i)) = false ->
  update' self i
  = (let s := advance_leads
                (safety_reset (shift_anchor (reload_kegman self i)) i) i in
     Some (interpolate
             (set_v_acc_future s
                (Qmin (Qmin (v_mpc_future (mpc1 s)) (v_mpc_future (mpc2 s)))
                   (setpoint' i))) i)).
Proof.
  intros Hen. unfold update, choose_solution. rewrite Hen. reflexivity.
Qed.

(** C2, as amended.  After one cycle with [enabled] false, from any planner
    state, [cruise_source] is [Coast] and the committed target equals the
    cruise candidate.  When the control state is not [starting], both are
    the measured state: the measured speed and [min(measured accel, 0)].
    When it is [starting], both are the minimum supported speed and the
    start acceleration of the car. *)
Theorem disabled_update_resets (self : Planner M) (i : Inputs) :
  enabled_of (longControlState (sm i)) = false ->
  exists self',
    update' self i = Some self'
    /\ cruise_source self' = Source.cruiseCoast
    /\ v_acc self' = v_cruise self' /\ a_acc self' = a_cruise self'
    /\ (longControlState (sm i) <> LongCtrlState.starting ->
        v_acc self' = vEgo (sm i) /\ a_acc self' = Qmin (aEgo (sm i)) 0.0)
    /\ (longControlState (sm i) = LongCtrlState.starting ->
        v_acc self' = minSpeedCan (CP self)
        /\ a_acc self' = startAccel (CP self)).
Proof.
  intros Hen. rewrite (update_disabled self i Hen).
  destruct (begin_cycle_frame self i) as (_ & _ & _ & _ & Hcp).
  set (s1 := shift_anchor (reload_kegman self i)) in *. clearbody s1.
  eexists. split; [reflexivity|]. planner_simpl. rewrite Hcp.
  do 3 (split; [reflexivity|]).
  split; intros H0; split.
  - destruct (longControlState (sm i)); cbn; congruence.
  - destruct (longControlState (sm i)); cbn; congruence.
  - rewrite H0. reflexivity.
  - rewrite H0. reflexivity.
Qed.

(** C9.  With [enabled] false, [choose_solution] leaves [source], [v_acc]
    and [a_acc] as they were and writes [v_acc_future], the least of the two
    trackers' future speeds and the set speed.  Over a whole cycle of a
    planner that is not engaged, [source] is therefore what it was before
    the cycle (a lead tracker, if it was one) while [cruise_source] has
    become [Coast], and [v_acc_future] is recomputed from the advanced
    trackers. *)
Theorem disabled_choose_solution_frame (self : Planner M) (i : Inputs)
  (v_cruise_setpoint : Q) :
  enabled_of (longControlState (sm i)) = false ->
  (exists self',
      choose_solution self v_cruise_setpoint false = Some self'
      /\ source self' = source self
      /\ v_acc self' = v_acc self
      /\ a_acc self' = a_acc self
      /\ v_acc_future self'
         = Qmin (Qmin (v_mpc_future (mpc1 self)) (v_mpc_future (mpc2 self)))
             v_cruise_setpoint)
  /\ (exists self',
         update' self i = Some self'
         /\ source self' = source self
         /\ cruise_source self' = Source.cruiseCoast
         /\ v_acc_future self'
            = Qmin (Qmin (v_mpc_future (mpc1 self'))
                      (v_mpc_future (mpc2 self')))
                (setpoint' i)).
Proof.
  intros Hen. split.
  - destruct (choose_solution_frame self v_cruise_setpoint false)
      as (s & Hs & _ & _ & _ & _ & Hf & Hfr).
    destruct (Hfr eq_refl) as (Hsrc & Hv & Ha).
    exists s. auto.
  - rewrite (update_disabled self i Hen).
    destruct (begin_cycle_frame self i) as (_ & _ & _ & Hsrc & _).
    set (s1 := shift_anchor (reload_kegman self i)) in *. clearbody s1.
    eexists. split; [reflexivity|]. planner_simpl. rewrite Hsrc.
    repeat split.
Qed.

End UpdateCycle.

(** ** Concrete cycles *)

Lemma disabled_update_resets_witness :
  enabled_of (longControlState (sm (cycle_with LongCtrlState.off 20 0 0))) = false
  /\ exists self',
       update step_smoother metric 144 tied_planner
         (cycle_with LongCtrlState.off 20 0 0) = Some self'
       /\ cruise_source self' = Source.cruiseCoast
       /\ v_acc self' = 20 /\ a_acc self' = Qmin 0.5 0.0.
Proof.
  split; [reflexivity|].
  destruct (disabled_update_resets step_smoother metric 144 tied_planner
              (cycle_with LongCtrlState.off 20 0 0))
    as (s & Hs & Hc & _ & _ & Hoff & _).
  - reflexivity.
  - exists s. destruct Hoff as [Hv Ha]; [discriminate|]. auto.
Defined.

(** C2 as stated fails: in the [starting] control state the planner is not
    engaged, and the reset targets the minimum supported speed (0.3 m/s
    here) instead of the measured speed (0 m/s). *)
Lemma starting_reset_is_not_measured :
  ~ (forall (self : Planner LeadFollower) (i : Inputs),
        enabled_of (longControlState (sm i)) = false ->
        exists self',
          update step_smoother metric 144 self i = Some self'
          /\ v_acc self' == vEgo (sm i)
          /\ a_acc self' == Qmin (aEgo (sm i)) 0
          /\ v_cruise self' == vEgo (sm i)
          /\ a_cruise self' == Qmin (aEgo (sm i)) 0
          /\ cruise_source self' = Source.cruiseCoast).
Proof.
  intros Hclaim.
  destruct (Hclaim tied_planner (cycle_with LongCtrlState.starting 0 0 0)
              eq_refl) as (s & Hs & Hv & _).
  vm_compute in Hs. injection Hs as <-.
  vm_compute in Hv. discriminate.
Qed.

Lemma forced_decel_bounds_passed_witness :
  exists accel_limits_turns jerk_limits,
    snd accel_limits_turns <= AWARENESS_DECEL
    /\ fst accel_limits_turns <= snd accel_limits_turns
    /\ plan_cruise step_smoother metric 144 tied_planner forced_cycle
       = option_map commit_cruise
           (choose_cruise step_smoother metric tied_planner 20 0.5
              (v_cruise_setpoint_of metric 144 forced_cycle)
              accel_limits_turns jerk_limits (gasbrake_of forced_cycle)).
Proof.
  apply (forced_decel_bounds_passed step_smoother metric 144 tied_planner
           forced_cycle).
  reflexivity.
Defined.

(** On that cycle (20 m/s, Normal mode, following) the bounds before the
    override are (-0.7, 0.7); the override passes (-0.7, -0.2). *)
Example forced_cycle_limits :
  option_map (force_decel_limits true)
    (calc_cruise_accel_limits 20 true 1)
  = Some (Qmin (interp 20 _A_CRUISE_MIN_BP _A_CRUISE_MIN_V) AWARENESS_DECEL,
          AWARENESS_DECEL)
  /\ interp 20 _A_CRUISE_MIN_BP _A_CRUISE_MIN_V == -0.7.
Proof. split; reflexivity. Qed.

Lemma gas_hysteresis_witness :
  exists self',
    run step_smoother metric 144 tied_planner
      (firstn 2 [cycle_with LongCtrlState.pid 20 0.3 0;
                 cycle_with LongCtrlState.stopping 20 0.1 0]) = Some self'
    /\ cruise_source self' = Source.cruiseGas.
Proof.
  apply (gas_hysteresis step_smoother metric 144
           [cycle_with LongCtrlState.pid 20 0.3 0;
            cycle_with LongCtrlState.stopping 20 0.1 0] tied_planner).
  - reflexivity.
  - reflexivity.
  - repeat constructor.
Defined.

Lemma choose_cruise_reselect_witness :
  coast_enabled tied_planner = true
  /\ exists self' r,
       choose_cruise step_smoother metric tied_planner 20 0.5 25
         (-1, 0.4) (-1, 1) 0 = Some (self', r)
       /\ cruise_candidate step_smoother metric tied_planner 20 0.5 25
            (-1, 0.4) (-1, 1) (cruise_source self') = Some r.
Proof.
  split; [reflexivity|].
  destruct (choose_cruise_reselect step_smoother metric tied_planner 20 0.5 25
              (-1, 0.4) (-1, 1) 0)
    as (s & r & _ & _ & _ & _ & _ & _ & Hs & Hr & _).
  - reflexivity.
  - right; left; reflexivity.
  - exists s, r. auto.
Defined.

(** With the stand-in smoother both smoothed candidates have acceleration
    0.4, below the measured 0.5, so a zero actuator command selects
    [Brake]. *)
Example choose_cruise_zero_command :
  option_map (fun p => (cruise_source (fst p), snd p))
    (choose_cruise step_smoother metric tied_planner 20 0.5 25
       (-1, 0.4) (-1, 1) 0)
  = Some (Source.cruiseBrake, (25 + COAST_SPEED metric, 0.4)).
Proof. reflexivity. Qed.

Lemma disabled_choose_solution_frame_witness :
  exists self',
    update step_smoother metric 144 tied_planner
      (cycle_with LongCtrlState.off 20 0 0) = Some self'
    /\ source self' = Source.mpc2
    /\ cruise_source self' = Source.cruiseCoast.
Proof.
  destruct (disabled_choose_solution_frame step_smoother metric 144
              tied_planner (cycle_with LongCtrlState.off 20 0 0) 25)
    as (_ & s & Hs & Hsrc & Hc & _).
  - reflexivity.
  - exists s. auto.
Defined.

(** A run from a reachable planner ends in a reachable planner. *)
Lemma run_reachable {M : Type} `{LongitudinalMpc M}
  (smoother : Q -> Q -> Q -> Q -> Q -> Q -> Q -> Q -> Q * Q)
  (CV : Conversions) (V_CRUISE_MAX : Q) (cycles : list Inputs) :
  forall self self' : Planner M,
    reachable smoother CV V_CRUISE_MAX self ->
    run smoother CV V_CRUISE_MAX self cycles = Some self' ->
    reachable smoother CV V_CRUISE_MAX self'.
Proof.
  induction cycles as [|i rest IH]; intros self self' Hr Hrun.
  - cbn [run] in Hrun. injection Hrun as <-. exact Hr.
  - cbn [run] in Hrun.
    destruct (update smoother CV V_CRUISE_MAX self i) as [s|] eqn:Hs;
      [|discriminate].
    cbn [bind] in Hrun.
    apply (IH s self'); [|exact Hrun].
    exact (reachable_update _ _ _ self i s Hr Hs).
Qed.

(** After the constructor and two engaged cycles (the first resets, the
    second plans through [choose_cruise]), coasting is still enabled. *)
Lemma coast_enabled_invariant_witness :
  exists self' : Planner LeadFollower,
    run step_smoother metric 144 (init car {| accelerationMode := 1 |})
      [cycle_with LongCtrlState.pid 20 0.3 0;
       cycle_with LongCtrlState.pid 20 0 0] = Some self'
    /\ first_loop self' = false
    /\ cruise_source self' = Source.cruiseGas
    /\ coast_enabled self' = true
    /\ choose_cruise step_smoother metric self' 20 0.5 25 (-1, 0.4) (-1, 1) 0.1
       = choose_cruise_coasting step_smoother metric self' 20 0.5 25
           (-1, 0.4) (-1, 1) 0.1.
Proof.
  match eval vm_compute in
        (run step_smoother metric 144
           (init (M := LeadFollower) car {| accelerationMode := 1 |})
           [cycle_with LongCtrlState.pid 20 0.3 0;
            cycle_with LongCtrlState.pid 20 0 0]) with
  | Some ?s =>
      exists s;
      destruct (coast_enabled_invariant step_smoother metric 144 s)
        as [Hce Hcc];
      [ apply (run_reachable step_smoother metric 144
                 [cycle_with LongCtrlState.pid 20 0.3 0;
                  cycle_with LongCtrlState.pid 20 0 0]
                 (init car {| accelerationMode := 1 |}));
        [ apply reachable_init | vm_compute; reflexivity ]
      | split; [vm_compute; reflexivity|];
        split; [reflexivity|]; split; [reflexivity|];
        split; [exact Hce | apply Hcc] ]
  end.
Defined.

(** C3 as stated fails.  The claim constrains only the cycles that take the
    engaged path; a cycle off that path may lie between them.  From the
    planner on [Gas], with [gasbrake = 0.3] on every cycle, the driver
    presses the gas pedal during the second cycle: that cycle resets
    [cruise_source] to [Coast] (line 253), the arbiter picks the cruise
    candidate, and the third cycle, on the engaged path again, neither hands
    over (lines 155-159) nor reselects (line 183), so it ends on [Coast]. *)
Lemma gas_lost_after_override :
  ~ (forall (self : Planner LeadFollower) (cycles : list Inputs),
        cruise_source self = Source.cruiseGas ->
        (forall n s i,
            run step_smoother metric 144 self (firstn n cycles) = Some s ->
            nth_error cycles n = Some i ->
            cruise_path s i = true -> 0 < gasbrake_of i) ->
        forall n s i s',
          run step_smoother metric 144 self (firstn n cycles) = Some s ->
          nth_error cycles n = Some i ->
          cruise_path s i = true ->
          update step_smoother metric 144 s i = Some s' ->
          cruise_source s' = Source.cruiseGas).
Proof.
  intros Hclaim.
  pose (cycles := [cycle_with LongCtrlState.pid 20 0.3 0; pressed_cycle;
                   cycle_with LongCtrlState.pid 20 0.3 0]).
  assert (Hgas : forall n s i,
             run step_smoother metric 144 tied_planner (firstn n cycles)
             = Some s ->
             nth_error cycles n = Some i ->
             cruise_path s i = true -> 0 < gasbrake_of i).
  { intros n s i _ Hi _.
    destruct n as [|[|[|n]]]; cbn in Hi;
      try (injection Hi as <-; reflexivity).
    destruct n; discriminate. }
  pose proof (Hclaim tied_planner cycles eq_refl Hgas 2%nat) as Hthird.
  cbn [firstn cycles nth_error] in Hthird.
  match eval vm_compute in
        (run step_smoother metric 144 tied_planner
           [cycle_with LongCtrlState.pid 20 0.3 0; pressed_cycle]) with
  | Some ?s2 =>
      match eval vm_compute in
            (update step_smoother metric 144 s2
               (cycle_with LongCtrlState.pid 20 0.3 0)) with
      | Some ?s3 =>
          assert (Hc : cruise_source s3 = Source.cruiseGas);
          [ apply (Hthird s2 (cycle_with LongCtrlState.pid 20 0.3 0) s3);
            vm_compute; reflexivity
          | vm_compute in Hc; discriminate Hc ]
      end
  end.
Qed.

(** ** Acceleration limit in turns *)

Section TurnLimit.
Local Open Scope R_scope.
Import Turns.

Lemma math_sqrt_clamped (x : R) :
  math_sqrt (Rmax x 0) = Some (sqrt (Rmax x 0)).
Proof.
  unfold math_sqrt. destruct (Rlt_dec (Rmax x 0) 0) as [Hlt | _].
  - pose proof (Rmax_r x 0). lra.
  - reflexivity.
Qed.

Lemma truediv_defined (a b : R) : b <> 0 -> truediv a b = Some (a / b).
Proof.
  intros Hb. unfold truediv. destruct (Req_dec_T b 0); [contradiction|].
  reflexivity.
Qed.

Lemma truediv_by_zero (a b : R) : b = 0 -> truediv a b = None.
Proof.
  intros Hb. unfold truediv. destruct (Req_dec_T b 0); [|contradiction].
  reflexivity.
Qed.

Lemma pow2_defined (x : R) : x ^ 2 < FLOAT_OVERFLOW -> pow2 x = Some (x ^ 2).
Proof.
  intros Hx. unfold pow2. destruct (Rle_dec FLOAT_OVERFLOW (x ^ 2)); [lra|].
  reflexivity.
Qed.

Lemma pow2_some (x y : R) :
  pow2 x = Some y -> y = x ^ 2 /\ x ^ 2 < FLOAT_OVERFLOW.
Proof.
  unfold pow2. destruct (Rle_dec FLOAT_OVERFLOW (x ^ 2)); [discriminate|].
  intros E. injection E as <-. split; [reflexivity | lra].
Qed.

(** The overflow threshold is far above the magnitudes of driving. *)
Lemma FLOAT_OVERFLOW_large : 2 ^ 54 - 1 <= FLOAT_OVERFLOW.
Proof.
  unfold FLOAT_OVERFLOW.
  replace 1024%nat with (970 + 54)%nat by reflexivity.
  rewrite pow_add.
  assert (H970 : 1 <= 2 ^ 970) by (apply pow_R1_Rle; lra).
  assert (H54 : 0 < 2 ^ 54) by (apply pow_lt; lra).
  nra.
Qed.

Lemma FLOAT_OVERFLOW_above (x : R) : x <= 10 ^ 15 -> x < FLOAT_OVERFLOW.
Proof.
  intros Hx. pose proof FLOAT_OVERFLOW_large as HT.
  assert (H : 10 ^ 15 < 2 ^ 54 - 1) by lra.
  lra.
Qed.

Lemma Rle_bool_false (a b : R) : Rle_bool a b = false -> b < a.
Proof.
  unfold Rle_bool. destruct (Rle_dec a b); [discriminate|]. intros _. lra.
Qed.

Lemma Rle_bool_true (a b : R) : Rle_bool a b = true -> a <= b.
Proof.
  unfold Rle_bool. destruct (Rle_dec a b); [auto | discriminate].
Qed.

Lemma segment_within_R (lo hi x x0 x1 y0 y1 : R) :
  x0 < x -> x <= x1 -> lo <= y0 <= hi -> lo <= y1 <= hi ->
  lo <= (x - x0) * (y1 - y0) / (x1 - x0) + y0 <= hi.
Proof.
  intros Hx0 Hx1 [Hl0 Hh0] [Hl1 Hh1].
  assert (Hd : 0 < x1 - x0) by lra.
  set (t := (x - x0) / (x1 - x0)).
  assert (Ht : t * (x1 - x0) = x - x0) by (unfold t; field; lra).
  replace ((x - x0) * (y1 - y0) / (x1 - x0) + y0) with (y0 + t * (y1 - y0))
    by (unfold t; field; lra).
  assert (Ht0 : 0 <= t) by nra.
  assert (Ht1 : t <= 1) by nra.
  split; nra.
Qed.

Lemma interp_from_within_R (lo hi x : R) (xp fp : list R) :
  forall x0 y0,
    x0 < x -> lo <= y0 <= hi -> Forall (fun y => lo <= y <= hi) fp ->
    lo <= interp_from R Rle_bool Rplus Rminus Rmult Rdiv x x0 y0 xp fp <= hi.
Proof.
  revert fp. induction xp as [|x1 xp IH]; intros fp x0 y0 Hx Hy Hfp.
  - exact Hy.
  - destruct fp as [|y1 fp]; [exact Hy|].
    inversion Hfp as [|? ? Hy1 Hfp']; subst.
    cbn [interp_from].
    destruct (Rle_bool x x1) eqn:E.
    + apply Rle_bool_true in E. now apply segment_within_R.
    + apply IH; auto. now apply Rle_bool_false.
Qed.

Lemma interp_within_R (lo hi x x0 y0 : R) (xp fp : list R) :
  Forall (fun y => lo <= y <= hi) (y0 :: fp) ->
  lo <= interp x (x0 :: xp) (y0 :: fp) <= hi.
Proof.
  intros Hfp. inversion Hfp as [|? ? Hy0 Hfp']; subst.
  unfold interp, interp_gen.
  destruct (Rle_bool x x0) eqn:E; [exact Hy0|].
  apply interp_from_within_R; auto. now apply Rle_bool_false.
Qed.

(** The total acceleration budget of either table is between 1.7 and 5, so
    its square never overflows. *)
Lemma a_total_max_range (slowOnCurves : Z) (v_ego : R) :
  1.7 <= (if negb (slowOnCurves =? 0)%Z
          then interp v_ego _A_TOTAL_MAX_BP_SOC _A_TOTAL_MAX_V_SOC
          else interp v_ego _A_TOTAL_MAX_BP _A_TOTAL_MAX_V) <= 5.
Proof.
  destruct (negb (slowOnCurves =? 0)%Z).
  - apply interp_within_R. repeat constructor; lra.
  - apply interp_within_R. repeat constructor; lra.
Qed.

(** What [limit_accel_in_turns] returns when it returns, and when it does. *)
Lemma limit_accel_in_turns_value (slowOnCurves : Z) (v_ego angle_steers : R)
  (a_target : R * R) (steerRatio wheelbase : R) :
  let a_total_max :=
    if negb (slowOnCurves =? 0)%Z
    then interp v_ego _A_TOTAL_MAX_BP_SOC _A_TOTAL_MAX_V_SOC
    else interp v_ego _A_TOTAL_MAX_BP _A_TOTAL_MAX_V in
  let a_y :=
    v_ego ^ 2 * angle_steers * DEG_TO_RAD / (steerRatio * wheelbase) in
  let a_x_allowed := sqrt (Rmax (a_total_max ^ 2 - a_y ^ 2) 0) in
  (steerRatio * wheelbase <> 0 -> v_ego ^ 2 < FLOAT_OVERFLOW ->
   a_y ^ 2 < FLOAT_OVERFLOW ->
   limit_accel_in_turns slowOnCurves v_ego angle_steers a_target
     steerRatio wheelbase
   = Some (fst a_target, Rmin (snd a_target) a_x_allowed))
  /\ (forall r,
        limit_accel_in_turns slowOnCurves v_ego angle_steers a_target
          steerRatio wheelbase = Some r ->
        steerRatio * wheelbase <> 0 /\ v_ego ^ 2 < FLOAT_OVERFLOW
        /\ a_y ^ 2 < FLOAT_OVERFLOW
        /\ r = (fst a_target, Rmin (snd a_target) a_x_allowed)).
Proof.
  intros a_total_max a_y a_x_allowed.
  pose proof (a_total_max_range slowOnCurves v_ego) as HA.
  fold a_total_max in HA.
  assert (HA2 : pow2 a_total_max = Some (a_total_max ^ 2)).
  { apply pow2_defined. apply FLOAT_OVERFLOW_above. nra. }
  unfold limit_accel_in_turns. fold a_total_max.
  split.
  - intros Hd Hv Hy.
    rewrite (pow2_defined _ Hv). cbn [bind].
    rewrite (truediv_defined _ _ Hd). cbn [bind].
    rewrite HA2. cbn [bind]. fold a_y.
    rewrite (pow2_defined _ Hy). cbn [bind].
    rewrite math_sqrt_clamped. reflexivity.
  - intros r.
    destruct (pow2 v_ego) as [v2|] eqn:Ev; [|discriminate].
    apply pow2_some in Ev. destruct Ev as [-> Hv]. cbn [bind].
    unfold truediv.
    destruct (Req_dec_T (steerRatio * wheelbase) 0) as [|Hd]; [discriminate|].
    cbn [bind]. rewrite HA2. cbn [bind]. fold a_y.
    destruct (pow2 a_y) as [y2|] eqn:Ey; [|discriminate].
    apply pow2_some in Ey. destruct Ey as [-> Hy]. cbn [bind].
    rewrite math_sqrt_clamped. cbn [bind].
    intros E. injection E as <-. auto.
Qed.

(** Speeds up to 100 m/s, steering angles up to 1000 degrees and a product
    [steerRatio * wheelbase] between 1 and 1000 keep every intermediate
    result of lines 77-78 finite. *)
Lemma driving_range_finite (v_ego angle_steers steerRatio wheelbase : R) :
  v_ego ^ 2 <= 10000 -> Rabs angle_steers <= 1000 ->
  1 <= steerRatio * wheelbase <= 1000 ->
  steerRatio * wheelbase <> 0
  /\ v_ego ^ 2 < FLOAT_OVERFLOW
  /\ finite_float (v_ego ^ 2 * angle_steers)
  /\ finite_float (steerRatio * wheelbase)
  /\ (v_ego ^ 2 * angle_steers * DEG_TO_RAD / (steerRatio * wheelbase)) ^ 2
     < FLOAT_OVERFLOW.
Proof.
  intros Hv Ha [Hd1 Hd2].
  set (d := steerRatio * wheelbase) in *.
  assert (Hv0 : 0 <= v_ego ^ 2) by apply pow2_ge_0.
  assert (Ha0 : 0 <= Rabs angle_steers) by apply Rabs_pos.
  split; [lra|]. split; [apply FLOAT_OVERFLOW_above; lra|].
  unfold finite_float.
  split.
  { apply FLOAT_OVERFLOW_above. rewrite Rabs_mult.
    rewrite (Rabs_pos_eq _ Hv0). nra. }
  split.
  { apply FLOAT_OVERFLOW_above. rewrite Rabs_pos_eq by lra. lra. }
  apply FLOAT_OVERFLOW_above.
  pose proof PI_RGT_0 as Hpi0. pose proof PI_4 as Hpi4.
  rewrite <- pow2_abs.
  set (k := v_ego ^ 2 * DEG_TO_RAD / d).
  assert (Hk : v_ego ^ 2 * angle_steers * DEG_TO_RAD / d = k * angle_steers)
    by (unfold k; field; lra).
  rewrite Hk, Rabs_mult.
  assert (Hk0 : 0 <= k).
  { unfold k, DEG_TO_RAD, Rdiv.
    assert (0 < / d) by (apply Rinv_0_lt_compat; lra).
    assert (0 <= v_ego ^ 2 * (PI * / 180)) by nra.
    nra. }
  assert (Hk1 : k <= 10000 * (4 / 180)).
  { unfold k, DEG_TO_RAD, Rdiv.
    assert (Hi : / d <= 1).
    { rewrite <- Rinv_1. apply Rinv_le_contravar; lra. }
    assert (0 < / d) by (apply Rinv_0_lt_compat; lra).
    assert (Hn : v_ego ^ 2 * (PI * / 180) <= 10000 * (4 * / 180)) by nra.
    assert (0 <= v_ego ^ 2 * (PI * / 180)) by nra.
    nra. }
  rewrite (Rabs_pos_eq _ Hk0).
  assert (Hp : 0 <= k * Rabs angle_steers) by nra.
  assert (Hq : k * Rabs angle_steers <= 1000000) by nra.
  assert ((k * Rabs angle_steers) ^ 2 <= 1000000 ^ 2) by (apply pow_incr; lra).
  lra.
Qed.




End TurnLimit.

(** * Further properties of the planner *)

Section PlannerEffects.
Context {M : Type} `{LongitudinalMpc M}.
Variable speed_smoother : Q -> Q -> Q -> Q -> Q -> Q -> Q -> Q -> Q * Q.
Variable CV : Conversions.
Variable V_CRUISE_MAX : Q.

Local Abbreviation choose_cruise' := (choose_cruise speed_smoother CV).
Local Abbreviation plan_cruise' := (plan_cruise speed_smoother CV V_CRUISE_MAX).
Local Abbreviation update' := (update speed_smoother CV V_CRUISE_MAX).
Local Abbreviation run' := (run speed_smoother CV V_CRUISE_MAX).
Local Abbreviation setpoint' := (v_cruise_setpoint_of CV V_CRUISE_MAX).
Local Abbreviation reachable' := (reachable speed_smoother CV V_CRUISE_MAX).

Ltac compare_speeds :=
  repeat match goal with
  | |- context [Qlt_bool ?a ?b] =>
      let E := fresh "E" in
      destruct (Qlt_bool a b) eqn:E;
      [apply Qlt_bool_iff in E | apply Qlt_bool_false in E]
  end.

(** [choose_cruise] writes the anchor and [cruise_source], nothing else. *)
Lemma choose_cruise_writes (self : Planner M)
  (v_ego a_ego v_cruise_setpoint : Q) (accel_limits_turns jerk_limits : Q * Q)
  (gasbrake : Q) :
  is_cruise (cruise_source self) ->
  exists r v0 a0 s,
    choose_cruise' self v_ego a_ego v_cruise_setpoint accel_limits_turns
      jerk_limits gasbrake
    = Some (set_cruise_source (set_a_acc_start (set_v_acc_start self v0) a0) s,
            r)
    /\ is_cruise s
    /\ (coast_enabled self = true ->
        (v0, a0) = anchor self v_ego a_ego
        /\ (~ gasbrake == 0 -> s = handed_over self gasbrake)).
Proof.
  intros Hc. destruct self as [cp m1 m2 vs as_ vn an va vf aa vc ac src cs kg fr fl ce].
  unfold choose_cruise, choose_cruise_coasting, is_cruise, anchor, handed_over in *.
  cbn [coast_enabled cruise_source source v_acc_start a_acc_start] in *.
  destruct ce; cbn [negb].
  - destruct (Qeq_bool gasbrake 0) eqn:Ez;
      [apply Qeq_bool_iff in Ez | apply Qeq_bool_neq in Ez];
      destruct src;
      cbn [Source.eqb orb v_acc_start a_acc_start set_v_acc_start
           set_a_acc_start set_cruise_source];
      destruct (speed_smoother _ _ v_cruise_setpoint _ _ _ _ _);
      destruct (speed_smoother _ _ (v_cruise_setpoint + _) _ _ _ _ _);
      repeat match goal with
             | |- context [Qle_bool ?a ?b] =>
                 let E := fresh "E" in
                 destruct (Qle_bool a b) eqn:E;
                 [apply Qle_bool_iff in E | apply Qle_bool_false in E]
             end;
      cbn [andb];
      cbn [cruise_source set_cruise_source set_v_acc_start set_a_acc_start
           dict_getitem Source.eqb bind];
      try lra;
      try (destruct Hc as [Hc | [Hc | Hc]]; subst cs;
           cbn [dict_getitem Source.eqb bind]);
      do 4 eexists;
      unfold set_cruise_source, set_a_acc_start, set_v_acc_start;
      planner_simpl; (split; [reflexivity|]);
      (split; [auto|]); intros _; (split; [reflexivity|]);
      intros Hnz; try (exfalso; lra); reflexivity.
  - do 4 eexists. split; [reflexivity|]. split; [auto|].
    intros Hf; discriminate.
Qed.

(** [choose_solution] writes [source], [v_acc], [a_acc] and [v_acc_future],
    nothing else; when engaged, what it commits is least among the
    candidates. *)
Lemma choose_solution_writes (self : Planner M) (v_cruise_setpoint : Q)
  (enabled : bool) :
  is_cruise (cruise_source self) ->
  exists s v a,
    choose_solution self v_cruise_setpoint enabled
    = Some (set_v_acc_future (set_a_acc (set_v_acc (set_source self s) v) a)
              (Qmin (Qmin (v_mpc_future (mpc1 self))
                       (v_mpc_future (mpc2 self))) v_cruise_setpoint))
    /\ (enabled = false ->
        s = source self /\ v = v_acc self /\ a = a_acc self)
    /\ (enabled = true ->
        v <= v_cruise self
        /\ (prev_lead_status (mpc1 self) = true -> v <= v_mpc (mpc1 self))
        /\ (prev_lead_status (mpc2 self) = true -> v <= v_mpc (mpc2 self))
        /\ (s = cruise_source self \/ s = Source.mpc1 \/ s = Source.mpc2)).
Proof.
  intros Hc.
  destruct self as [cp m1 m2 vs as_ vn an va vf aa vc ac src cs kg fr fl ce].
  unfold choose_solution, solutions, is_cruise in *.
  cbn [cruise_source v_cruise mpc1 mpc2 source v_acc a_acc] in *.
  destruct enabled.
  - destruct (prev_lead_status m1) eqn:L1;
      destruct (prev_lead_status m2) eqn:L2;
      destruct Hc as [Hc | [Hc | Hc]]; subst cs;
      cbn [dict_set dict_min_key min_key_from Source.eqb bind];
      compare_speeds;
      cbn [Source.eqb bind];
      do 3 eexists;
      unfold set_v_acc_future, set_a_acc, set_v_acc, set_source;
      planner_simpl;
      (split; [reflexivity|]);
      (split; [intros Hf; discriminate|]);
      intros _; repeat split; intros; auto; try discriminate; lra.
  - cbn [bind]. do 3 eexists.
    unfold set_v_acc_future, set_a_acc, set_v_acc, set_source. planner_simpl.
    split; [reflexivity|].
    split; [auto|]. intros Hf; discriminate.
Qed.

(** The shape of one cycle: the anchor is shifted, the cruise candidate is
    planned or reset, the trackers are advanced, the arbiter commits and the
    next anchor is interpolated.  [s2] is the planner after the cruise
    candidate was written, [s4] the planner after arbitration. *)
Lemma update_stages (self : Planner M) (i : Inputs) :
  is_cruise (cruise_source self) ->
  let s1 := shift_anchor (reload_kegman self i) in
  exists s2 s v a,
    update' self i
    = Some (interpolate
              (set_v_acc_future
                 (set_a_acc (set_v_acc (set_source (advance_leads s2 i) s) v) a)
                 (Qmin (Qmin (v_mpc_future (mpc1 (advance_leads s2 i)))
                          (v_mpc_future (mpc2 (advance_leads s2 i))))
                    (setpoint' i))) i)
    /\ is_cruise (cruise_source s2)
    /\ (cruise_path self i = false -> s2 = safety_reset s1 i)
    /\ (cruise_path self i = true ->
        exists al r v0 a0 cs,
          calc_cruise_accel_limits (vEgo (sm i))
            (following_of (leadOne (sm i)) (vEgo (sm i)))
            (accelerationMode (kegman s1)) = Some al
          /\ choose_cruise' s1 (vEgo (sm i)) (aEgo (sm i)) (setpoint' i)
               (force_decel_limits (forceDecel (sm i)) al)
               (Qmin (-0.1) (fst al), Qmax 0.1 (snd al)) (gasbrake_of i)
             = Some (set_cruise_source
                       (set_a_acc_start (set_v_acc_start s1 v0) a0) cs, r)
          /\ (coast_enabled self = true ->
              (v0, a0) = anchor s1 (vEgo (sm i)) (aEgo (sm i))
              /\ (~ gasbrake_of i == 0 ->
                  cs = handed_over s1 (gasbrake_of i)))
          /\ s2 = commit_cruise
                    (set_cruise_source
                       (set_a_acc_start (set_v_acc_start s1 v0) a0) cs, r))
    /\ (enabled_of (longControlState (sm i)) = false ->
        s = source s2 /\ v = v_acc s2 /\ a = a_acc s2)
    /\ (enabled_of (longControlState (sm i)) = true ->
        v <= v_cruise s2
        /\ (prev_lead_status (mpc1 (advance_leads s2 i)) = true ->
            v <= v_mpc (mpc1 (advance_leads s2 i)))
        /\ (prev_lead_status (mpc2 (advance_leads s2 i)) = true ->
            v <= v_mpc (mpc2 (advance_leads s2 i)))
        /\ (s = cruise_source s2 \/ s = Source.mpc1 \/ s = Source.mpc2)).
Proof.
  intros Hc s1. unfold update. fold s1.
  assert (Hfl : first_loop s1 = first_loop self)
    by apply (begin_cycle_frame self i).
  assert (Hcs : cruise_source s1 = cruise_source self)
    by apply (begin_cycle_frame self i).
  assert (Hce : coast_enabled s1 = coast_enabled self)
    by apply (begin_cycle_frame self i).
  unfold cruise_path. rewrite Hfl.
  assert (Hc1 : is_cruise (cruise_source s1)) by (rewrite Hcs; exact Hc).
  destruct (enabled_of (longControlState (sm i)) && negb (first_loop self)
            && negb (gasPressed (sm i))) eqn:Hp.
  - unfold plan_cruise.
    destruct (calc_cruise_accel_limits_defined (vEgo (sm i))
                (following_of (leadOne (sm i)) (vEgo (sm i)))
                (accelerationMode (kegman s1))) as [al Hal].
    rewrite Hal. cbn [bind].
    destruct (choose_cruise_writes s1 (vEgo (sm i)) (aEgo (sm i)) (setpoint' i)
                (force_decel_limits (forceDecel (sm i)) al)
                (Qmin (-0.1) (fst al), Qmax 0.1 (snd al))
                (actuators_gas (sm i) - actuators_brake (sm i)) Hc1)
      as (r & v0 & a0 & cs & Hcc & Hcs' & Hanchor).
    rewrite Hcc. cbn [bind].
    set (s2 := commit_cruise _).
    assert (Hc2 : is_cruise (cruise_source s2)).
    { unfold s2. destruct r. planner_simpl. exact Hcs'. }
    destruct (choose_solution_writes (advance_leads s2 i) (setpoint' i)
                (enabled_of (longControlState (sm i))))
      as (s & v & a & Hsol & Hdis & Hen).
    { planner_simpl. exact Hc2. }
    rewrite Hsol. cbn [bind].
    exists s2, s, v, a. split; [reflexivity|]. split; [exact Hc2|].
    split; [intros Hf; discriminate|].
    split.
    + intros _. exists al, r, v0, a0, cs. split; [reflexivity|].
      split; [exact Hcc|]. split; [|reflexivity].
      intros Hco. rewrite <- Hce in Hco. exact (Hanchor Hco).
    + split; [exact Hdis|]. exact Hen.
  - cbn [bind].
    set (s2 := safety_reset s1 i).
    assert (Hc2 : is_cruise (cruise_source s2)).
    { unfold s2. planner_simpl. left. reflexivity. }
    destruct (choose_solution_writes (advance_leads s2 i) (setpoint' i)
                (enabled_of (longControlState (sm i))))
      as (s & v & a & Hsol & Hdis & Hen).
    { planner_simpl. exact Hc2. }
    rewrite Hsol. cbn [bind].
    exists s2, s, v, a. split; [reflexivity|]. split; [exact Hc2|].
    split; [reflexivity|].
    split; [intros Hf; discriminate|].
    split; [exact Hdis | exact Hen].
Qed.

(** X1.  From every reachable planner, any sequence of cycles runs to the
    end: [update] raises no [KeyError] (the cruise dictionary), no
    [IndexError] (the mode table) and no [ValueError] of [min] (the
    solutions dictionary), whatever the messages, the smoother, the trackers
    and the integer that [int(...)] makes of the configured mode; and
    [cruise_source] stays one of the three cruise variants.  A configured
    mode that [int(...)] does not convert makes line 61 raise before any of
    this: the model starts from the converted integer. *)
Theorem run_never_raises (self : Planner M) :
  reachable' self ->
  forall cycles : list Inputs,
  exists self',
    run' self cycles = Some self'
    /\ reachable' self'
    /\ is_cruise (cruise_source self').
Proof.
  intros Hr cycles. revert self Hr.
  induction cycles as [|i rest IH]; intros self Hr.
  - exists self. split; [reflexivity|]. split; [exact Hr|].
    apply (reachable_invariant speed_smoother CV V_CRUISE_MAX self Hr).
  - destruct (reachable_invariant speed_smoother CV V_CRUISE_MAX self Hr)
      as [Hc _].
    destruct (update_defined speed_smoother CV V_CRUISE_MAX self i Hc)
      as (s & Hs & _).
    cbn [run]. rewrite Hs. cbn [bind].
    apply IH. exact (reachable_update _ _ _ self i s Hr Hs).
Qed.

(** X2.  The arbiter's order of preference on ties.  With [enabled] true,
    the first tracker is chosen exactly when it reports a lead, is strictly
    slower than the cruise candidate and at most as fast as the second
    tracker (if that one reports a lead); the second exactly when it reports
    a lead and is strictly slower than both others; the cruise candidate in
    the remaining case.  So on equal speeds cruise goes before the first
    tracker, and the first tracker before the second. *)
Theorem choose_solution_priority (self : Planner M) (v_cruise_setpoint : Q) :
  is_cruise (cruise_source self) ->
  exists self',
    choose_solution self v_cruise_setpoint true = Some self'
    /\ (source self' = Source.mpc1 <->
        prev_lead_status (mpc1 self) = true
        /\ v_mpc (mpc1 self) < v_cruise self
        /\ (prev_lead_status (mpc2 self) = true ->
            v_mpc (mpc1 self) <= v_mpc (mpc2 self)))
    /\ (source self' = Source.mpc2 <->
        prev_lead_status (mpc2 self) = true
        /\ v_mpc (mpc2 self) < v_cruise self
        /\ (prev_lead_status (mpc1 self) = true ->
            v_mpc (mpc2 self) < v_mpc (mpc1 self)))
    /\ (source self' = cruise_source self <->
        (prev_lead_status (mpc1 self) = true ->
         v_cruise self <= v_mpc (mpc1 self))
        /\ (prev_lead_status (mpc2 self) = true ->
            v_cruise self <= v_mpc (mpc2 self))).
Proof.
  intros Hc.
  unfold choose_solution, solutions.
  destruct (prev_lead_status (mpc1 self)) eqn:L1;
    destruct (prev_lead_status (mpc2 self)) eqn:L2;
    destruct Hc as [Hc | [Hc | Hc]]; rewrite !Hc;
    cbn [dict_set dict_min_key min_key_from Source.eqb bind];
    compare_speeds;
    cbn [Source.eqb bind];
    eexists; (split; [reflexivity|]);
    cbn [source set_source set_v_acc set_a_acc set_v_acc_future
         mpc1 mpc2 v_cruise cruise_source];
    rewrite ?Hc;
    cbn [Source.eqb source set_source set_v_acc set_a_acc set_v_acc_future];
    repeat split; intros;
    repeat match goal with
           | Hx : _ /\ _ |- _ => destruct Hx
           | Hx : true = true -> _ |- _ => specialize (Hx eq_refl)
           end;
    try discriminate; try reflexivity; try lra.
Qed.

(** X3.  After every cycle in which the planner is engaged (also one that
    resets the cruise candidate: the first cycle, or the driver on the gas),
    the committed target speed is at most the cruise candidate's speed and
    at most the speed of each tracker that reports a lead, and [source] is
    the current [cruise_source] or one of the two trackers. *)
Theorem engaged_target_least (self : Planner M) (i : Inputs) :
  enabled_of (longControlState (sm i)) = true ->
  is_cruise (cruise_source self) ->
  exists self',
    update' self i = Some self'
    /\ v_acc self' <= v_cruise self'
    /\ (prev_lead_status (mpc1 self') = true ->
        v_acc self' <= v_mpc (mpc1 self'))
    /\ (prev_lead_status (mpc2 self') = true ->
        v_acc self' <= v_mpc (mpc2 self'))
    /\ (source self' = cruise_source self'
        \/ source self' = Source.mpc1 \/ source self' = Source.mpc2).
Proof.
  intros Hen Hc.
  destruct (update_stages self i Hc)
    as (s2 & s & v & a & Hup & _ & _ & _ & _ & Hleast).
  destruct (Hleast Hen) as (Hv & H1 & H2 & Hs).
  eexists. split; [exact Hup|]. planner_simpl. auto.
Qed.

(** X4.  After every cycle that plans the cruise speed, the cruise
    candidate's speed is not negative: [choose_cruise]'s speed is floored at
    zero (line 241) and nothing later in the cycle writes it. *)
Theorem planned_cruise_speed_nonneg (self : Planner M) (i : Inputs) :
  cruise_path self i = true ->
  is_cruise (cruise_source self) ->
  exists self',
    update' self i = Some self' /\ 0 <= v_cruise self'.
Proof.
  intros Hp Hc.
  destruct (update_stages self i Hc)
    as (s2 & s & v & a & Hup & _ & _ & Hplan & _).
  destruct (Hplan Hp) as (al & [rv ra] & v0 & a0 & cs & _ & _ & _ & Hs2).
  eexists. split; [exact Hup|]. planner_simpl. rewrite Hs2. planner_simpl.
  pose proof (Q.le_max_r rv 0.0) as Hm. lra.
Qed.

(** X5.  After every cycle, [v_acc_future] is at most the set speed
    converted to m/s, at most [V_CRUISE_MAX] converted (the set speed is
    capped, line 204), and at most the future speed of either tracker: also
    of a tracker that reports no lead. *)
Theorem future_speed_capped (self : Planner M) (i : Inputs) :
  0 <= KPH_TO_MS CV ->
  is_cruise (cruise_source self) ->
  exists self',
    update' self i = Some self'
    /\ v_acc_future self' <= vCruise (sm i) * KPH_TO_MS CV
    /\ v_acc_future self' <= V_CRUISE_MAX * KPH_TO_MS CV
    /\ v_acc_future self' <= v_mpc_future (mpc1 self')
    /\ v_acc_future self' <= v_mpc_future (mpc2 self').
Proof.
  intros Hk Hc.
  destruct (update_stages self i Hc) as (s2 & s & v & a & Hup & _).
  eexists. split; [exact Hup|]. planner_simpl.
  set (f1 := v_mpc_future _). set (f2 := v_mpc_future _).
  unfold v_cruise_setpoint_of.
  pose proof (Q.le_min_l (Qmin f1 f2)
                (Qmin (vCruise (sm i)) V_CRUISE_MAX * KPH_TO_MS CV)) as Hl.
  pose proof (Q.le_min_r (Qmin f1 f2)
                (Qmin (vCruise (sm i)) V_CRUISE_MAX * KPH_TO_MS CV)) as Hr.
  pose proof (Q.le_min_l f1 f2) as H1.
  pose proof (Q.le_min_r f1 f2) as H2.
  pose proof (Q.le_min_l (vCruise (sm i)) V_CRUISE_MAX) as H3.
  pose proof (Q.le_min_r (vCruise (sm i)) V_CRUISE_MAX) as H4.
  repeat split; try lra; nra.
Qed.

(** What a cycle does to the configuration and the frame counter. *)
Lemma update_config (self : Planner M) (i : Inputs) :
  is_cruise (cruise_source self) ->
  exists self',
    update' self i = Some self'
    /\ is_cruise (cruise_source self')
    /\ kegman self'
       = (if (mpc_frame self mod 1000 =? 0)%Z
          then kegman_file i else kegman self)
    /\ mpc_frame self'
       = (if (mpc_frame self mod 1000 =? 0)%Z
          then 1 else mpc_frame self + 1)%Z.
Proof.
  intros Hc.
  destruct (update_stages self i Hc)
    as (s2 & s & v & a & Hup & Hc2 & Hreset & Hplan & _).
  eexists. split; [exact Hup|]. planner_simpl. split; [exact Hc2|].
  destruct (cruise_path self i).
  - destruct (Hplan eq_refl) as (al & [rv ra] & v0 & a0 & cs & _ & _ & _ & ->).
    unfold shift_anchor, reload_kegman.
    destruct (mpc_frame self mod 1000 =? 0)%Z; planner_simpl; split; reflexivity.
  - rewrite (Hreset eq_refl).
    unfold shift_anchor, reload_kegman.
    destruct (mpc_frame self mod 1000 =? 0)%Z; planner_simpl; split; reflexivity.
Qed.

(** Between two reloads the configuration is the one loaded last. *)
Lemma config_kept (cycles : list Inputs) :
  forall self : Planner M,
    is_cruise (cruise_source self) ->
    (0 < mpc_frame self)%Z ->
    (mpc_frame self + Z.of_nat (length cycles) <= 1000)%Z ->
    exists self',
      run' self cycles = Some self'
      /\ kegman self' = kegman self
      /\ mpc_frame self' = (mpc_frame self + Z.of_nat (length cycles))%Z.
Proof.
  induction cycles as [|i rest IH]; intros self Hc Hpos Hle.
  - exists self. cbn [run length Z.of_nat]. repeat split. lia.
  - cbn [length] in Hle. rewrite Nat2Z.inj_succ in Hle.
    destruct (update_config self i Hc) as (s & Hs & Hcs & Hk & Hf).
    assert (Hmod : (mpc_frame self mod 1000 =? 0)%Z = false).
    { apply Z.eqb_neq. rewrite Z.mod_small by lia. lia. }
    rewrite Hmod in Hk, Hf.
    destruct (IH s Hcs) as (s' & Hs' & Hk' & Hf'); [lia | lia |].
    exists s'. cbn [run]. rewrite Hs. cbn [bind].
    split; [exact Hs'|]. split; [congruence|].
    cbn [length]. rewrite Nat2Z.inj_succ. lia.
Qed.

(** X6.  The configuration is read again exactly every 1000 cycles.  On a
    cycle whose frame counter is a multiple of 1000 (the first cycle after
    construction is one) the planner takes the configuration file as it is
    then, and keeps it over the next 999 cycles whatever the file holds in
    the meantime; the counter then stands at 1000 and the next cycle reloads
    again. *)
Theorem config_reload_period (i : Inputs) (cycles : list Inputs)
  (self : Planner M) :
  is_cruise (cruise_source self) ->
  (mpc_frame self mod 1000 = 0)%Z ->
  (length cycles <= 999)%nat ->
  exists self',
    run' self (i :: cycles) = Some self'
    /\ kegman self' = kegman_file i
    /\ mpc_frame self' = (1 + Z.of_nat (length cycles))%Z.
Proof.
  intros Hc Hmod Hlen.
  destruct (update_config self i Hc) as (s & Hs & Hcs & Hk & Hf).
  apply Z.eqb_eq in Hmod. rewrite Hmod in Hk, Hf.
  destruct (config_kept cycles s Hcs) as (s' & Hs' & Hk' & Hf'); [lia | lia |].
  exists s'. cbn [run]. rewrite Hs. cbn [bind].
  split; [exact Hs'|]. split; [congruence | lia].
Qed.

Lemma Qdiv_LON_MPC_STEP (dt : Q) : dt / LON_MPC_STEP == dt * 5.
Proof. unfold LON_MPC_STEP. field. Qed.

(** X7.  The anchor handed to the next cycle.  When the radar time step is
    between zero and the planning step of 0.2 s, [a_acc_next] lies between
    the cycle's anchor acceleration and the committed target acceleration,
    and [v_acc_next] is the anchor speed advanced over one radar step by the
    mean of the two accelerations. *)
Theorem next_anchor_between (self : Planner M) (i : Inputs) :
  0 <= radarTimeStep (CP_arg i) ->
  radarTimeStep (CP_arg i) <= LON_MPC_STEP ->
  is_cruise (cruise_source self) ->
  exists self',
    update' self i = Some self'
    /\ within (Qmin (a_acc_start self') (a_acc self'))
         (Qmax (a_acc_start self') (a_acc self')) (a_acc_next self')
    /\ v_acc_next self'
       = v_acc_start self'
         + radarTimeStep (CP_arg i)
           * (a_acc_next self' + a_acc_start self') / 2.0.
Proof.
  intros Hdt0 Hdt1 Hc.
  destruct (update_stages self i Hc) as (s2 & s & v & a & Hup & _).
  eexists. split; [exact Hup|]. planner_simpl. split; [|reflexivity].
  set (a0 := a_acc_start s2).
  set (dt := radarTimeStep (CP_arg i)) in *.
  pose proof (Qdiv_LON_MPC_STEP dt) as Ht.
  set (t := dt / LON_MPC_STEP) in *.
  unfold LON_MPC_STEP in Hdt1.
  unfold within.
  destruct (Q.min_spec a0 a) as [[Hlt Hmin] | [Hle Hmin]];
    destruct (Q.max_spec a0 a) as [[Hlt' Hmax] | [Hle' Hmax]];
    rewrite Hmin, Hmax; split; nra.
Qed.

(** What the first steps of a cycle leave of the planner. *)
Lemma begin_cycle_fields (self : Planner M) (i : Inputs) :
  let s := shift_anchor (reload_kegman self i) in
  mpc1 s = mpc1 self /\ mpc2 s = mpc2 self
  /\ v_acc_start s = v_acc_next self /\ a_acc_start s = a_acc_next self
  /\ source s = source self /\ cruise_source s = cruise_source self
  /\ coast_enabled s = coast_enabled self /\ CP s = CP self.
Proof.
  unfold shift_anchor, reload_kegman.
  destruct (mpc_frame self mod 1000 =? 0)%Z; planner_simpl; repeat split.
Qed.

(** X8.  The first cycle after construction never plans: whatever the
    control state, it loads the configuration file, resets the cruise
    candidate and the anchor to the reset pair (the car's minimum speed and
    start acceleration in the [starting] state, else the measured speed and
    [min(measured accel, 0)]), sets [cruise_source] to [Coast] and clears
    [first_loop]. *)
Theorem first_cycle_resets (cp : CarParams) (conf : KegmanConf) (i : Inputs) :
  exists self' : Planner M,
    update' (init cp conf) i = Some self'
    /\ kegman self' = kegman_file i
    /\ first_loop self' = false
    /\ cruise_source self' = Source.cruiseCoast
    /\ v_cruise self'
       = (if LongCtrlState.eqb (longControlState (sm i)) LongCtrlState.starting
          then minSpeedCan cp else vEgo (sm i))
    /\ a_cruise self'
       = (if LongCtrlState.eqb (longControlState (sm i)) LongCtrlState.starting
          then startAccel cp else Qmin (aEgo (sm i)) 0.0)
    /\ v_acc_start self' = v_cruise self'
    /\ a_acc_start self' = a_cruise self'.
Proof.
  assert (Hc : is_cruise (cruise_source (init (M := M) cp conf)))
    by (left; reflexivity).
  destruct (update_stages (init cp conf) i Hc)
    as (s2 & s & v & a & Hup & _ & Hreset & _).
  assert (Hp : cruise_path (init (M := M) cp conf) i = false).
  { unfold cruise_path. cbn [init first_loop negb].
    rewrite andb_false_r. reflexivity. }
  rewrite (Hreset Hp) in Hup.
  eexists. split; [exact Hup|].
  repeat split.
Qed.

(** X9.  While the driver presses the gas on an engaged cycle, the cruise
    candidate and the anchor are reset to the measured state, with the
    acceleration capped at zero, and [cruise_source] becomes [Coast]; the
    arbiter still runs, so the committed target speed is at most the
    measured speed. *)
Theorem gas_pressed_resets (self : Planner M) (i : Inputs) :
  enabled_of (longControlState (sm i)) = true ->
  gasPressed (sm i) = true ->
  is_cruise (cruise_source self) ->
  exists self',
    update' self i = Some self'
    /\ cruise_source self' = Source.cruiseCoast
    /\ v_cruise self' = vEgo (sm i)
    /\ a_cruise self' = Qmin (aEgo (sm i)) 0.0
    /\ v_acc_start self' = vEgo (sm i)
    /\ a_acc_start self' = Qmin (aEgo (sm i)) 0.0
    /\ v_acc self' <= vEgo (sm i).
Proof.
  intros Hen Hgas Hc.
  destruct (update_stages self i Hc)
    as (s2 & s & v & a & Hup & _ & Hreset & _ & _ & Hleast).
  assert (Hp : cruise_path self i = false).
  { unfold cruise_path. rewrite Hgas. cbn [negb]. apply andb_false_r. }
  destruct (Hleast Hen) as (Hv & _).
  rewrite (Hreset Hp) in Hup, Hv.
  eexists. split; [exact Hup|]. planner_simpl. planner_simpl_in Hv.
  assert (Hst : LongCtrlState.eqb (longControlState (sm i))
                  LongCtrlState.starting = false).
  { destruct (longControlState (sm i)); try reflexivity; discriminate. }
  rewrite Hst in *. auto 10.
Qed.

(** One planned cycle with a negative actuator command keeps [Brake]. *)
Lemma update_keeps_brake (self : Planner M) (i : Inputs) :
  cruise_source self = Source.cruiseBrake -> coast_enabled self = true ->
  cruise_path self i = true -> gasbrake_of i < 0 ->
  exists self',
    update' self i = Some self'
    /\ cruise_source self' = Source.cruiseBrake
    /\ coast_enabled self' = true
    /\ first_loop self' = false.
Proof.
  intros Hb Hce Hp Hg.
  assert (Hc : is_cruise (cruise_source self))
    by (right; right; exact Hb).
  destruct (update_stages self i Hc)
    as (s2 & s & v & a & Hup & _ & _ & Hplan & _).
  destruct (Hplan Hp)
    as (al & [rv ra] & v0 & a0 & cs & _ & _ & Hanchor & Hs2).
  destruct (Hanchor Hce) as [_ Hcs].
  assert (Hnz : ~ gasbrake_of i == 0) by lra.
  specialize (Hcs Hnz).
  destruct (begin_cycle_fields self i)
    as (_ & _ & _ & _ & Hsrc & Hcs1 & Hce1 & _).
  set (s1 := shift_anchor (reload_kegman self i)) in *. clearbody s1.
  unfold handed_over in Hcs. rewrite Hcs1, Hb in Hcs.
  assert (Hneg : Qle_bool 0 (gasbrake_of i) = false).
  { destruct (Qle_bool 0 (gasbrake_of i)) eqn:E; [|reflexivity].
    apply Qle_bool_iff in E. lra. }
  rewrite Hneg in Hcs.
  assert (Hcs' : cs = Source.cruiseBrake)
    by (destruct (source _); exact Hcs).
  eexists. split; [exact Hup|]. planner_simpl. rewrite Hs2. planner_simpl.
  rewrite Hce1. auto.
Qed.

(** X10.  The counterpart of the [Gas] hysteresis for braking, which holds
    only with coasting enabled: from [cruise_source = Brake], over any
    sequence of planned cycles with [gasbrake] strictly negative,
    [cruise_source] is [Brake] after every cycle, whatever the smoother and
    the trackers compute and whatever [source] was. *)
Theorem brake_hysteresis (cycles : list Inputs) :
  forall self : Planner M,
    cruise_source self = Source.cruiseBrake ->
    coast_enabled self = true ->
    first_loop self = false ->
    Forall (fun i => enabled_of (longControlState (sm i)) = true
                     /\ gasPressed (sm i) = false
                     /\ gasbrake_of i < 0) cycles ->
    forall n : nat,
    exists self',
      run' self (firstn n cycles) = Some self'
      /\ cruise_source self' = Source.cruiseBrake.
Proof.
  induction cycles as [|i rest IH]; intros self Hb Hce Hfl Hall n.
  - rewrite firstn_nil. exists self. split; [reflexivity | exact Hb].
  - destruct n as [|n].
    + exists self. split; [reflexivity | exact Hb].
    + inversion Hall as [|? ? (Hen & Hgp & Hg) Hrest]; subst.
      assert (Hp : cruise_path self i = true).
      { unfold cruise_path. rewrite Hen, Hfl, Hgp. reflexivity. }
      destruct (update_keeps_brake self i Hb Hce Hp Hg)
        as (s & Hs & Hbs & Hces & Hfs).
      cbn [firstn run]. rewrite Hs. cbn [bind].
      apply IH; assumption.
Qed.

(** X11.  Both trackers are advanced from the anchor of the cycle: each is
    given [(v_acc_start, a_acc_start)] as they stand at the end of the cycle
    and then updated with the car state and its lead.  On a cycle that
    resets, that anchor is the reset cruise candidate; on a planned cycle
    (coasting enabled) it is the measured state if the previous source was
    [cruiseCoast], else the anchor interpolated by the previous cycle. *)
Theorem trackers_start_from_anchor (self : Planner M) (i : Inputs) :
  is_cruise (cruise_source self) ->
  exists self',
    update' self i = Some self'
    /\ mpc1 self'
       = mpc_update (set_cur_state (mpc1 self) (v_acc_start self')
                       (a_acc_start self')) (sm i) (leadOne (sm i))
    /\ mpc2 self'
       = mpc_update (set_cur_state (mpc2 self) (v_acc_start self')
                       (a_acc_start self')) (sm i) (leadTwo (sm i))
    /\ (cruise_path self i = false ->
        v_acc_start self' = v_cruise self'
        /\ a_acc_start self' = a_cruise self')
    /\ (cruise_path self i = true -> coast_enabled self = true ->
        (v_acc_start self', a_acc_start self')
        = match source self with
          | Source.cruiseCoast => (vEgo (sm i), aEgo (sm i))
          | _ => (v_acc_next self, a_acc_next self)
          end).
Proof.
  intros Hc.
  destruct (update_stages self i Hc)
    as (s2 & s & v & a & Hup & _ & Hreset & Hplan & _).
  destruct (begin_cycle_fields self i)
    as (Hm1 & Hm2 & Hvs & Has & Hsrc & _).
  set (s1 := shift_anchor (reload_kegman self i)) in *. clearbody s1.
  eexists. split; [exact Hup|]. planner_simpl.
  destruct (cruise_path self i).
  - destruct (Hplan eq_refl)
      as (al & [rv ra] & v0 & a0 & cs & _ & _ & Hanchor & Hs2).
    rewrite Hs2. planner_simpl. rewrite Hm1, Hm2.
    split; [reflexivity|]. split; [reflexivity|].
    split; [intros Hf; discriminate|].
    intros _ Hce. destruct (Hanchor Hce) as [Ha _].
    unfold anchor in Ha. rewrite Hsrc, Hvs, Has in Ha.
    exact Ha.
  - rewrite (Hreset eq_refl). planner_simpl. rewrite Hm1, Hm2.
    split; [reflexivity|]. split; [reflexivity|].
    split; [auto|]. intros Hf; discriminate.
Qed.

(** What a cycle does to [cruise_source], and what it leaves of [source]
    when the planner is not engaged. *)
Lemma update_cruise_source (self : Planner M) (i : Inputs) :
  is_cruise (cruise_source self) ->
  exists self',
    update' self i = Some self'
    /\ first_loop self' = false
    /\ coast_enabled self' = coast_enabled self
    /\ is_cruise (cruise_source self')
    /\ (cruise_path self i = false ->
        cruise_source self' = Source.cruiseCoast)
    /\ (cruise_path self i = true -> coast_enabled self = true ->
        ~ gasbrake_of i == 0 ->
        cruise_source self' = handed_over self (gasbrake_of i))
    /\ (enabled_of (longControlState (sm i)) = false ->
        source self' = source self).
Proof.
  intros Hc.
  destruct (update_stages self i Hc)
    as (s2 & s & v & a & Hup & Hc2 & Hreset & Hplan & Hdis & _).
  destruct (begin_cycle_fields self i)
    as (_ & _ & _ & _ & Hsrc & Hcs1 & Hce1 & _).
  set (s1 := shift_anchor (reload_kegman self i)) in *. clearbody s1.
  eexists. split; [exact Hup|]. planner_simpl.
  split; [reflexivity|].
  destruct (cruise_path self i) eqn:Hp.
  - destruct (Hplan eq_refl)
      as (al & [rv ra] & v0 & a0 & cs & _ & _ & Hanchor & Hs2).
    assert (Hen : enabled_of (longControlState (sm i)) = true).
    { unfold cruise_path in Hp.
      destruct (enabled_of (longControlState (sm i))); [reflexivity|].
      discriminate. }
    rewrite Hs2 in *. planner_simpl. planner_simpl_in Hc2.
    split; [exact Hce1|]. split; [exact Hc2|].
    split; [intros Hf; discriminate|].
    split.
    + intros _ Hce Hnz. destruct (Hanchor Hce) as [_ Hh].
      rewrite (Hh Hnz). unfold handed_over. rewrite Hsrc, Hcs1. reflexivity.
    + intros Hf. congruence.
  - rewrite (Hreset eq_refl) in *. planner_simpl.
    split; [exact Hce1|]. split; [left; reflexivity|].
    split; [reflexivity|].
    split; [intros Hf; discriminate|].
    intros Hen. destruct (Hdis Hen) as [-> _]. planner_simpl. exact Hsrc.
Qed.

(** X12.  Re-engaging after lead following.  A cycle with the planner not
    engaged resets [cruise_source] to [Coast] but leaves [source]; when
    [source] was a lead tracker, the first planned cycle after it, with a
    non-zero actuator command, takes [cruise_source] straight to [Gas] (a
    positive command) or [Brake] (a negative one): the hand-over acts on the
    source left from before the planner was disengaged. *)
Theorem reengage_after_lead (self : Planner M) (i1 i2 : Inputs) :
  source self = Source.mpc1 \/ source self = Source.mpc2 ->
  coast_enabled self = true ->
  is_cruise (cruise_source self) ->
  enabled_of (longControlState (sm i1)) = false ->
  enabled_of (longControlState (sm i2)) = true ->
  gasPressed (sm i2) = false ->
  ~ gasbrake_of i2 == 0 ->
  exists s1 s2,
    update' self i1 = Some s1
    /\ cruise_source s1 = Source.cruiseCoast
    /\ update' s1 i2 = Some s2
    /\ cruise_source s2
       = (if Qle_bool 0 (gasbrake_of i2)
          then Source.cruiseGas else Source.cruiseBrake).
Proof.
  intros Hsrc Hce Hc Hoff Hon Hgas Hnz.
  destruct (update_cruise_source self i1 Hc)
    as (s1 & Hs1 & Hfl1 & Hce1 & Hc1 & Hreset & _ & Hstale).
  assert (Hp1 : cruise_path self i1 = false).
  { unfold cruise_path. rewrite Hoff. reflexivity. }
  destruct (update_cruise_source s1 i2 Hc1)
    as (s2 & Hs2 & _ & _ & _ & _ & Hhand & _).
  assert (Hp2 : cruise_path s1 i2 = true).
  { unfold cruise_path. rewrite Hon, Hfl1, Hgas. reflexivity. }
  exists s1, s2. split; [exact Hs1|]. split; [exact (Hreset Hp1)|].
  split; [exact Hs2|].
  rewrite Hhand; [|exact Hp2 | congruence | exact Hnz].
  unfold handed_over. rewrite (Hstale Hoff).
  destruct Hsrc as [-> | ->]; reflexivity.
Qed.

End PlannerEffects.

(** ** Further properties of the acceleration limits *)

Lemma Qmin_right (x y : Q) : y < x -> Qmin x y = y.
Proof.
  intros Hlt. unfold Qmin, GenericMinMax.gmin.
  destruct (x ?= y) eqn:E; try reflexivity.
  - apply Qeq_alt in E. lra.
  - apply Qlt_alt in E. lra.
Qed.

Lemma Qmin_left (x y : Q) : x <= y -> Qmin x y = x.
Proof.
  intros Hle. unfold Qmin, GenericMinMax.gmin.
  destruct (x ?= y) eqn:E; try reflexivity.
  apply Qgt_alt in E. lra.
Qed.

Lemma Qmax_right (x y : Q) : x < y -> Qmax x y = y.
Proof.
  intros Hlt. unfold Qmax, GenericMinMax.gmax.
  destruct (x ?= y) eqn:E; try reflexivity.
  - apply Qeq_alt in E. lra.
  - apply Qgt_alt in E. lra.
Qed.

(** The range of the limits, read off the tables. *)
Lemma calc_cruise_accel_limits_range (v_ego : Q) (following : bool)
  (accelMode : Z) (accel_limits : Q * Q) :
  calc_cruise_accel_limits v_ego following accelMode = Some accel_limits ->
  fst accel_limits <= -0.5 /\ 0.2 <= snd accel_limits.
Proof.
  pose proof (a_cruise_min_upper v_ego) as Hmin.
  unfold calc_cruise_accel_limits. destruct following.
  - pose proof (a_cruise_max_lower v_ego _A_CRUISE_MAX_V_FOLLOWING
                  (or_introl eq_refl)) as Hmax.
    intros E. injection E as <-. split; [exact Hmin | exact Hmax].
  - destruct (mode_table_defined accelMode) as (tbl & -> & Hin).
    pose proof (a_cruise_max_lower v_ego tbl (or_intror Hin)) as Hmax.
    cbn [bind]. intros E. injection E as <-. split; [exact Hmin | exact Hmax].
Qed.

Lemma segment_monotone (x x0 x1 y0 y1 z0 z1 : Q) :
  x0 < x -> x <= x1 -> y0 <= z0 -> y1 <= z1 ->
  (x - x0) * (y1 - y0) / (x1 - x0) + y0
  <= (x - x0) * (z1 - z0) / (x1 - x0) + z0.
Proof.
  intros Hx0 Hx1 H0 H1.
  assert (Hd : 0 < x1 - x0) by lra.
  set (t := (x - x0) / (x1 - x0)).
  assert (Ht : t * (x1 - x0) == x - x0) by (unfold t; field; lra).
  assert (Hy : (x - x0) * (y1 - y0) / (x1 - x0) + y0 == y0 + t * (y1 - y0))
    by (unfold t; field; lra).
  assert (Hz : (x - x0) * (z1 - z0) / (x1 - x0) + z0 == z0 + t * (z1 - z0))
    by (unfold t; field; lra).
  rewrite Hy, Hz.
  assert (Ht0 : 0 <= t) by nra.
  assert (Ht1 : t <= 1) by nra.
  nra.
Qed.

Lemma interp_from_monotone (x : Q) (xp : list Q) :
  forall fp gp x0 y0 z0,
    x0 < x -> y0 <= z0 -> Forall2 Qle fp gp ->
    interp_from Q Qle_bool Qplus Qminus Qmult Qdiv x x0 y0 xp fp
    <= interp_from Q Qle_bool Qplus Qminus Qmult Qdiv x x0 z0 xp gp.
Proof.
  induction xp as [|x1 xp IH]; intros fp gp x0 y0 z0 Hx H0 Hall.
  - destruct fp, gp; exact H0.
  - inversion Hall as [|y1 z1 fp' gp' H1 Hall']; subst; [exact H0|].
    cbn [interp_from].
    destruct (Qle_bool x x1) eqn:E.
    + apply Qle_bool_iff in E. now apply segment_monotone.
    + apply IH; auto. now apply Qle_bool_false.
Qed.

(** Interpolation over the same breakpoints keeps the order of two
    tables. *)
Lemma interp_monotone (x : Q) (xp fp gp : list Q) :
  Forall2 Qle fp gp -> interp x xp fp <= interp x xp gp.
Proof.
  intros Hall. unfold interp, interp_gen.
  destruct xp as [|x0 xp]; [lra|].
  inversion Hall as [|y0 z0 fp' gp' H0 Hall']; subst; [lra|].
  destruct (Qle_bool x x0) eqn:E; [exact H0|].
  apply interp_from_monotone; auto. now apply Qle_bool_false.
Qed.

Ltac table_le :=
  repeat (apply Forall2_cons; [vm_compute; discriminate|]);
  apply Forall2_nil.

Lemma mode_tables_ordered (v_ego : Q) :
  interp v_ego _A_CRUISE_MAX_BP _A_CRUISE_MAX_V_ECO
    <= interp v_ego _A_CRUISE_MAX_BP _A_CRUISE_MAX_V
  /\ interp v_ego _A_CRUISE_MAX_BP _A_CRUISE_MAX_V
     <= interp v_ego _A_CRUISE_MAX_BP _A_CRUISE_MAX_V_SPORT.
Proof.
  split; apply interp_monotone; table_le.
Qed.

(** X13.  Without a lead to follow, a higher mode selector never lowers the
    upper bound and never changes the lower bound, at any speed: Eco is at
    most Normal, which is at most Sport, and a selector below 0 or above 2
    acts as Eco or Sport. *)
Theorem accel_mode_monotone (v_ego : Q) (mode1 mode2 : Z) :
  (mode1 <= mode2)%Z ->
  exists a_min a_max1 a_max2,
    calc_cruise_accel_limits v_ego false mode1 = Some (a_min, a_max1)
    /\ calc_cruise_accel_limits v_ego false mode2 = Some (a_min, a_max2)
    /\ a_max1 <= a_max2
    /\ ((mode1 <= 0)%Z ->
        calc_cruise_accel_limits v_ego false mode1
        = calc_cruise_accel_limits v_ego false 0)
    /\ ((2 <= mode2)%Z ->
        calc_cruise_accel_limits v_ego false mode2
        = calc_cruise_accel_limits v_ego false 2).
Proof.
  intros Hle.
  destruct (mode_tables_ordered v_ego) as [Hen Hns].
  unfold calc_cruise_accel_limits, _A_CRUISE_MAX_V_MODE_LIST_INDEX.
  cbn [length _A_CRUISE_MAX_V_MODE_LIST Z.of_nat Pos.of_succ_nat Pos.succ
       Z.sub Z.add Z.opp Z.pos_sub Pos.pred_double].
  assert (H1 : (Z.min (Z.max mode1 0) 2 = 0 /\ mode1 <= 0
                \/ Z.min (Z.max mode1 0) 2 = 1 /\ mode1 = 1
                \/ Z.min (Z.max mode1 0) 2 = 2 /\ 2 <= mode1)%Z) by lia.
  assert (H2 : (Z.min (Z.max mode2 0) 2 = 0 /\ mode2 <= 0
                \/ Z.min (Z.max mode2 0) 2 = 1 /\ mode2 = 1
                \/ Z.min (Z.max mode2 0) 2 = 2 /\ 2 <= mode2)%Z) by lia.
  destruct H1 as [[-> G1] | [[-> G1] | [-> G1]]];
    destruct H2 as [[-> G2] | [[-> G2] | [-> G2]]];
    try lia;
    cbn [list_getitem Z.leb Z.compare Z.to_nat Pos.to_nat Pos.iter_op
         nth_error Nat.add bind];
    do 3 eexists; (split; [reflexivity|]); (split; [reflexivity|]);
    (split; [lra|]); split; intros; try reflexivity; lia.
Qed.

Lemma accel_mode_monotone_witness :
  exists a_min a_max1 a_max2,
    calc_cruise_accel_limits 12 false (-3) = Some (a_min, a_max1)
    /\ calc_cruise_accel_limits 12 false 1 = Some (a_min, a_max2)
    /\ a_max1 <= a_max2.
Proof.
  destruct (accel_mode_monotone 12 (-3) 1) as (lo & h1 & h2 & E1 & E2 & Hle & _).
  - lia.
  - exists lo, h1, h2. auto.
Defined.

Section PlannedBounds.
Context {M : Type} `{LongitudinalMpc M}.
Variable speed_smoother : Q -> Q -> Q -> Q -> Q -> Q -> Q -> Q -> Q * Q.
Variable CV : Conversions.
Variable V_CRUISE_MAX : Q.

(** X14.  What [update] hands to [choose_cruise] on a planned cycle.  The
    tables keep [a_min <= -0.5] and [a_max >= 0.2], so the floors of 0.1 on
    the jerk limits never bind and the forced deceleration never lowers
    [a_min]: the jerk limits are the limits of [calc_cruise_accel_limits]
    themselves, and the acceleration bounds are those limits, with [a_max]
    replaced by [AWARENESS_DECEL] when the deceleration is forced. *)
Theorem planned_bounds_exact (self : Planner M) (i : Inputs) :
  exists accel_limits,
    calc_cruise_accel_limits (vEgo (sm i))
      (following_of (leadOne (sm i)) (vEgo (sm i)))
      (accelerationMode (kegman self)) = Some accel_limits
    /\ plan_cruise speed_smoother CV V_CRUISE_MAX self i
       = option_map commit_cruise
           (choose_cruise speed_smoother CV self (vEgo (sm i)) (aEgo (sm i))
              (v_cruise_setpoint_of CV V_CRUISE_MAX i)
              (if forceDecel (sm i)
               then (fst accel_limits, AWARENESS_DECEL) else accel_limits)
              accel_limits (gasbrake_of i)).
Proof.
  destruct (calc_cruise_accel_limits_defined (vEgo (sm i))
              (following_of (leadOne (sm i)) (vEgo (sm i)))
              (accelerationMode (kegman self))) as [al Hal].
  destruct (calc_cruise_accel_limits_range _ _ _ _ Hal) as [Hmin Hmax].
  exists al. split; [exact Hal|].
  unfold plan_cruise. rewrite Hal. cbn [bind].
  unfold force_decel_limits, AWARENESS_DECEL.
  rewrite (Qmin_right (-0.1) (fst al)) by lra.
  rewrite (Qmax_right 0.1 (snd al)) by lra.
  rewrite (Qmin_right (snd al) (-0.2)) by lra.
  rewrite (Qmin_left (fst al) (-0.2)) by lra.
  destruct al as [lo hi]. cbn [fst snd].
  unfold gasbrake_of, bind, option_map.
  destruct (forceDecel (sm i)); reflexivity.
Qed.

End PlannedBounds.

(** ** Further properties of the limit in turns *)

Section TurnLimitShape.
Local Open Scope R_scope.
Import Turns.

Lemma lateral_accel_linear (v_ego angle_steers d : R) :
  d <> 0 ->
  v_ego ^ 2 * angle_steers * DEG_TO_RAD / d
  = (v_ego ^ 2 * DEG_TO_RAD / d) * angle_steers.
Proof. intros Hd. field. exact Hd. Qed.

(** X15.  A larger steering angle, in absolute value, never raises the
    limit: whenever [limit_accel_in_turns] returns for two angles (it raises
    on a zero [steerRatio * wheelbase] and when a square overflows), the
    upper bound returned for the angle of larger magnitude is at most the
    one returned for the angle of smaller magnitude, which is at most the
    bound passed in; the lower bound is passed through; and the call with
    the opposite angle returns the same pair. *)
Theorem turn_limit_monotone (slowOnCurves : Z) (v_ego angle1 angle2 : R)
  (a_target : R * R) (steerRatio wheelbase : R) (r1 r2 : R * R) :
  limit_accel_in_turns slowOnCurves v_ego angle1 a_target steerRatio wheelbase
  = Some r1 ->
  limit_accel_in_turns slowOnCurves v_ego angle2 a_target steerRatio wheelbase
  = Some r2 ->
  Rabs angle1 <= Rabs angle2 ->
  snd r2 <= snd r1
  /\ snd r1 <= snd a_target
  /\ fst r1 = fst a_target /\ fst r2 = fst a_target
  /\ limit_accel_in_turns slowOnCurves v_ego (- angle1) a_target steerRatio
       wheelbase
     = Some r1.
Proof.
  intros E1 E2 Habs.
  destruct (limit_accel_in_turns_value slowOnCurves v_ego angle1 a_target
              steerRatio wheelbase) as [_ Hinv1].
  destruct (limit_accel_in_turns_value slowOnCurves v_ego angle2 a_target
              steerRatio wheelbase) as [_ Hinv2].
  destruct (limit_accel_in_turns_value slowOnCurves v_ego (- angle1) a_target
              steerRatio wheelbase) as [Hret _].
  destruct (Hinv1 _ E1) as (Hd & Hv & Hy1 & ->).
  destruct (Hinv2 _ E2) as (_ & _ & _ & ->).
  cbn [fst snd].
  rewrite (lateral_accel_linear v_ego angle1 _ Hd) in Hy1 |- *.
  rewrite (lateral_accel_linear v_ego angle2 _ Hd).
  set (k := v_ego ^ 2 * DEG_TO_RAD / (steerRatio * wheelbase)) in *.
  set (A := if negb (slowOnCurves =? 0)%Z then _ else _) in *.
  assert (Hneg : (k * - angle1) ^ 2 = (k * angle1) ^ 2) by ring.
  assert (Hsq : angle1 ^ 2 <= angle2 ^ 2).
  { rewrite <- (pow2_abs angle1), <- (pow2_abs angle2).
    apply pow_incr. split; [apply Rabs_pos | exact Habs]. }
  split; [|split; [|split; [|split]]].
  - apply Rle_min_compat_l. apply sqrt_le_1_alt. apply Rle_max_compat_r.
    assert (Hk : 0 <= k ^ 2) by apply pow2_ge_0.
    nra.
  - apply Rmin_l.
  - reflexivity.
  - reflexivity.
  - rewrite (lateral_accel_linear _ (- angle1) _ Hd) in Hret.
    fold k in Hret. rewrite Hneg in Hret.
    apply Hret; assumption.
Qed.

Lemma turn_limit_monotone_witness :
  exists r1 r2,
    limit_accel_in_turns 0 20 (-5) (-1, 1.5) 15 2.7 = Some r1
    /\ limit_accel_in_turns 0 20 30 (-1, 1.5) 15 2.7 = Some r2
    /\ snd r2 <= snd r1.
Proof.
  destruct (driving_range_finite 20 (-5) 15 2.7) as (Hd & Hv & _ & _ & Hy1).
  { lra. }
  { rewrite Rabs_left by lra. lra. }
  { lra. }
  destruct (driving_range_finite 20 30 15 2.7) as (_ & _ & _ & _ & Hy2).
  { lra. }
  { rewrite Rabs_pos_eq by lra. lra. }
  { lra. }
  destruct (limit_accel_in_turns_value 0 20 (-5) (-1, 1.5) 15 2.7)
    as [E1 _].
  destruct (limit_accel_in_turns_value 0 20 30 (-1, 1.5) 15 2.7)
    as [E2 _].
  specialize (E1 Hd Hv Hy1). specialize (E2 Hd Hv Hy2).
  destruct (turn_limit_monotone 0 20 (-5) 30 (-1, 1.5) 15 2.7 _ _ E1 E2)
    as (Hle & _).
  - rewrite Rabs_left by lra. rewrite Rabs_pos_eq by lra. lra.
  - do 2 eexists. split; [exact E1|]. split; [exact E2 | exact Hle].
Defined.

(** X16.  Whenever [limit_accel_in_turns] returns, the upper bound it
    returns is at most the total acceleration budget of the speed, which is
    at most 5 m/s^2; and with the wheel straight, or at standstill, the
    whole budget is available: the upper bound returned is
    [min(a_target[1], a_total_max)]. *)
Theorem turn_limit_budget (slowOnCurves : Z) (v_ego angle_steers : R)
  (a_target : R * R) (steerRatio wheelbase : R) (r : R * R) :
  limit_accel_in_turns slowOnCurves v_ego angle_steers a_target steerRatio
    wheelbase = Some r ->
  let a_total_max :=
    if negb (slowOnCurves =? 0)%Z
    then interp v_ego _A_TOTAL_MAX_BP_SOC _A_TOTAL_MAX_V_SOC
    else interp v_ego _A_TOTAL_MAX_BP _A_TOTAL_MAX_V in
  fst r = fst a_target
  /\ snd r <= a_total_max
  /\ snd r <= 5
  /\ (angle_steers = 0 \/ v_ego = 0 ->
      snd r = Rmin (snd a_target) a_total_max).
Proof.
  intros E a_total_max.
  pose proof (a_total_max_range slowOnCurves v_ego) as HA.
  fold a_total_max in HA.
  destruct (limit_accel_in_turns_value slowOnCurves v_ego angle_steers
              a_target steerRatio wheelbase) as [_ Hinv].
  destruct (Hinv _ E) as (Hd & _ & _ & ->).
  fold a_total_max. cbn [fst snd].
  set (a_y := _ / _).
  assert (Hroot : sqrt (a_total_max ^ 2) = a_total_max)
    by (apply sqrt_pow2; lra).
  assert (Hle : sqrt (Rmax (a_total_max ^ 2 - a_y ^ 2) 0) <= a_total_max).
  { rewrite <- Hroot at 2. apply sqrt_le_1_alt.
    apply Rmax_lub; [|apply pow2_ge_0].
    pose proof (pow2_ge_0 a_y). lra. }
  pose proof (Rmin_r (snd a_target)
                (sqrt (Rmax (a_total_max ^ 2 - a_y ^ 2) 0))) as Hr.
  split; [reflexivity|]. split; [lra|]. split; [lra|].
  intros Hz.
  assert (Hay : a_y = 0).
  { unfold a_y, Rdiv. destruct Hz as [-> | ->]; ring. }
  rewrite Hay.
  replace (a_total_max ^ 2 - 0 ^ 2) with (a_total_max ^ 2) by ring.
  rewrite Rmax_left by apply pow2_ge_0.
  rewrite Hroot. reflexivity.
Qed.

Lemma turn_limit_budget_witness :
  exists r,
    limit_accel_in_turns 1 30 12 (-1, 4) 15 2.7 = Some r
    /\ fst r = -1 /\ snd r <= 5.
Proof.
  destruct (driving_range_finite 30 12 15 2.7) as (Hd & Hv & _ & _ & Hy).
  { lra. }
  { rewrite Rabs_pos_eq by lra. lra. }
  { lra. }
  destruct (limit_accel_in_turns_value 1 30 12 (-1, 4) 15 2.7) as [E _].
  specialize (E Hd Hv Hy).
  destruct (turn_limit_budget 1 30 12 (-1, 4) 15 2.7 _ E)
    as (Hf & _ & Hle & _).
  eexists. split; [exact E|]. split; [exact Hf | exact Hle].
Defined.

End TurnLimitShape.

(** ** Concrete runs of the further properties *)

Lemma run_never_raises_witness :
  exists self',
    run step_smoother metric 144
      (init (M := LeadFollower) car {| accelerationMode := 1 |})
      [cycle_with LongCtrlState.off 20 0 0; forced_cycle; override_cycle]
    = Some self'
    /\ is_cruise (cruise_source self').
Proof.
  destruct (run_never_raises step_smoother metric 144
              (init car {| accelerationMode := 1 |}))
    with (cycles := [cycle_with LongCtrlState.off 20 0 0; forced_cycle;
                     override_cycle])
    as (s & Hs & _ & Hc).
  - apply reachable_init.
  - exists s. auto.
Defined.

Lemma choose_solution_priority_witness :
  exists self',
    choose_solution tied_planner 30 true = Some self'
    /\ (source self' = cruise_source tied_planner <->
        (prev_lead_status (mpc1 tied_planner) = true ->
         v_cruise tied_planner <= v_mpc (mpc1 tied_planner))
        /\ (prev_lead_status (mpc2 tied_planner) = true ->
            v_cruise tied_planner <= v_mpc (mpc2 tied_planner))).
Proof.
  destruct (choose_solution_priority tied_planner 30)
    as (s & Hs & _ & _ & Hc).
  - right; left; reflexivity.
  - exists s. auto.
Defined.

Lemma engaged_target_least_witness :
  exists self',
    update step_smoother metric 144 tied_planner forced_cycle = Some self'
    /\ v_acc self' <= v_cruise self'.
Proof.
  destruct (engaged_target_least step_smoother metric 144 tied_planner
              forced_cycle) as (s & Hs & Hv & _).
  - reflexivity.
  - right; left; reflexivity.
  - exists s. auto.
Defined.

Lemma planned_cruise_speed_nonneg_witness :
  exists self',
    update step_smoother metric 144 tied_planner forced_cycle = Some self'
    /\ 0 <= v_cruise self'.
Proof.
  apply (planned_cruise_speed_nonneg step_smoother metric 144 tied_planner
           forced_cycle).
  - reflexivity.
  - right; left; reflexivity.
Defined.

Lemma future_speed_capped_witness :
  exists self',
    update step_smoother metric 144 tied_planner
      (cycle_with LongCtrlState.pid 20 0.3 0) = Some self'
    /\ v_acc_future self' <= 90 * KPH_TO_MS metric.
Proof.
  destruct (future_speed_capped step_smoother metric 144 tied_planner
              (cycle_with LongCtrlState.pid 20 0.3 0))
    as (s & Hs & Hv & _).
  - vm_compute. discriminate.
  - right; left; reflexivity.
  - exists s. auto.
Defined.

Lemma config_reload_period_witness :
  exists self',
    run step_smoother metric 144
      (init (M := LeadFollower) car {| accelerationMode := 1 |})
      [override_cycle; forced_cycle; cycle_with LongCtrlState.off 20 0 0]
    = Some self'
    /\ kegman self' = {| accelerationMode := 2 |}
    /\ mpc_frame self' = 3%Z.
Proof.
  apply (config_reload_period step_smoother metric 144 override_cycle
           [forced_cycle; cycle_with LongCtrlState.off 20 0 0]
           (init car {| accelerationMode := 1 |})).
  - left. reflexivity.
  - reflexivity.
  - cbn [length]. lia.
Defined.

Lemma next_anchor_between_witness :
  exists self',
    update step_smoother metric 144 tied_planner forced_cycle = Some self'
    /\ within (Qmin (a_acc_start self') (a_acc self'))
         (Qmax (a_acc_start self') (a_acc self')) (a_acc_next self').
Proof.
  destruct (next_anchor_between step_smoother metric 144 tied_planner
              forced_cycle) as (s & Hs & Hw & _).
  - vm_compute. discriminate.
  - vm_compute. discriminate.
  - right; left; reflexivity.
  - exists s. auto.
Defined.

Lemma gas_pressed_resets_witness :
  exists self',
    update step_smoother metric 144 tied_planner override_cycle = Some self'
    /\ cruise_source self' = Source.cruiseCoast
    /\ v_cruise self' = 22
    /\ v_acc self' <= 22.
Proof.
  destruct (gas_pressed_resets step_smoother metric 144 tied_planner
              override_cycle) as (s & Hs & Hc & Hv & _ & _ & _ & Hle).
  - reflexivity.
  - reflexivity.
  - right; left; reflexivity.
  - exists s. auto.
Defined.

Lemma brake_hysteresis_witness :
  exists self',
    run step_smoother metric 144 braking_planner
      (firstn 2 [cycle_with LongCtrlState.pid 20 0 0.4;
                 cycle_with LongCtrlState.pid 19 0.1 0.3]) = Some self'
    /\ cruise_source self' = Source.cruiseBrake.
Proof.
  apply (brake_hysteresis step_smoother metric 144
           [cycle_with LongCtrlState.pid 20 0 0.4;
            cycle_with LongCtrlState.pid 19 0.1 0.3] braking_planner).
  - reflexivity.
  - reflexivity.
  - reflexivity.
  - repeat constructor.
Defined.

Lemma trackers_start_from_anchor_witness :
  exists self',
    update step_smoother metric 144 braking_planner
      (cycle_with LongCtrlState.pid 20 0 0.4) = Some self'
    /\ (v_acc_start self', a_acc_start self') = (19, -0.4).
Proof.
  destruct (trackers_start_from_anchor step_smoother metric 144
              braking_planner (cycle_with LongCtrlState.pid 20 0 0.4))
    as (s & Hs & _ & _ & _ & Ha).
  - right; right; reflexivity.
  - exists s. split; [exact Hs|]. apply Ha; reflexivity.
Defined.

Lemma reengage_after_lead_witness :
  exists s1 s2,
    update step_smoother metric 144 braking_planner
      (cycle_with LongCtrlState.off 20 0 0) = Some s1
    /\ cruise_source s1 = Source.cruiseCoast
    /\ update step_smoother metric 144 s1
         (cycle_with LongCtrlState.pid 20 0.3 0) = Some s2
    /\ cruise_source s2 = Source.cruiseGas.
Proof.
  apply (reengage_after_lead step_smoother metric 144 braking_planner
           (cycle_with LongCtrlState.off 20 0 0)
           (cycle_with LongCtrlState.pid 20 0.3 0)).
  - left. reflexivity.
  - reflexivity.
  - right; right; reflexivity.
  - reflexivity.
  - reflexivity.
  - reflexivity.
  - vm_compute. discriminate.
Defined.
